(** * The sculpture lookup service and the realtime session relay

    A shallow embedding of [node-express/src/json-data-service.ts] (the
    [JsonDataService] class) and of the handlers of
    [node-express/src/session.ts] (the [RTSession] class), together with the
    dataset [node-express/data/sculptures.json].

    JavaScript strings are sequences of UTF-16 code units; they are modelled
    as lists of code units, so that [length], [includes], [trim] and the two
    regular expressions of [normalizeName] mean here what they mean there.

    [String.prototype.toLowerCase] follows the case mappings of Unicode,
    which are not part of this program.  It is therefore a parameter of the
    embedding, [toLowerCase], as are the file system, [JSON.parse] and the
    upstream client: the properties below hold whatever function it is,
    and where one of them needs a fact about it, the fact is a premise. *)

From Stdlib Require Import List NArith Bool Arith Lia Ascii String DecimalString.
From Stdlib Require Import Sorting.Sorted Sorting.Permutation.
Import ListNotations.

(** A proof depends on the parameters its statement mentions, on no other. *)
Set Default Proof Using "Type".

(** ** JavaScript strings *)

Module JsString.

(** A string is the list of its UTF-16 code units. *)
Definition jsstring := list N.

Definition eqb (s t : jsstring) : bool :=
if list_eq_dec N.eq_dec s t then true else false.

(** The string literals of this file are written in UTF-8; [utf8_decode]
  gives the UTF-16 code units of the JavaScript string a literal stands
  for.  It is meant for these literals, which are well-formed UTF-8, and
  for nothing else: it is not a decoder of arbitrary bytes. *)
Fixpoint utf8_decode (s : string) : jsstring :=
match s with
| EmptyString => []
| String a r =>
  let b := N_of_ascii a in
  let cont (x : ascii) := (N_of_ascii x - 128)%N in
  if (b <? 128)%N then b :: utf8_decode r
  else if (b <? 224)%N then
    match r with
    | String a1 r1 => ((b - 192) * 64 + cont a1)%N :: utf8_decode r1
    | _ => [65533%N]
    end
  else if (b <? 240)%N then
    match r with
    | String a1 (String a2 r2) =>
      ((b - 224) * 4096 + cont a1 * 64 + cont a2)%N :: utf8_decode r2
    | _ => [65533%N]
    end
  else
    match r with
    | String a1 (String a2 (String a3 r3)) =>
      let cp := ((b - 240) * 262144 + cont a1 * 4096 + cont a2 * 64 + cont a3)%N in
      let v := (cp - 65536)%N in
      (55296 + v / 1024)%N :: (56320 + v mod 1024)%N :: utf8_decode r3
    | _ => [65533%N]
    end
end.

Definition lit (s : string) : jsstring := utf8_decode s.

Arguments lit s%_string.

(** The code units matched by [\s] in a regular expression, which are also
  the ones [String.prototype.trim] removes: WhiteSpace and LineTerminator
  of ECMA-262. *)
Definition isSpace (c : N) : bool :=
((9 <=? c) && (c <=? 13) || (c =? 32) || (c =? 160) || (c =? 5760)
 || (8192 <=? c) && (c <=? 8202) || (c =? 8232) || (c =? 8233)
 || (c =? 8239) || (c =? 8287) || (c =? 12288) || (c =? 65279))%N.

(** The code units matched by [\w] (no [i] or [u] flag): [A-Za-z0-9_]. *)
Definition isWord (c : N) : bool :=
((65 <=? c) && (c <=? 90) || (97 <=? c) && (c <=? 122)
 || (48 <=? c) && (c <=? 57) || (c =? 95))%N.

(** ** Lower case in the Latin blocks

  [latinLowerCase] is [String.prototype.toLowerCase] on the strings whose
  code units are all in Basic Latin, Latin-1 Supplement or Latin Extended-A
  (U+0000 to U+017F, [inLatinRange]): there the built-in maps each code
  unit by itself, as the table [latinLowerUnit] does; U+0130 is the one
  letter of these blocks whose lower case has two code units.  On other
  strings it is not the built-in, which knows further cased letters and
  one rule that depends on the neighbours of a letter.  It serves two
  purposes only: to evaluate the code on the dataset and on messages
  written in these blocks, and to show that what some theorems ask of
  [toLowerCase] can be met. *)
Definition latinLowerUnit (c : N) : list N :=
if ((65 <=? c) && (c <=? 90))%N then [(c + 32)%N]
else if ((192 <=? c) && (c <=? 222) && negb (c =? 215))%N then [(c + 32)%N]
else if (c =? 304)%N then [105%N; 775%N]
else if (c =? 376)%N then [255%N]
else if ((256 <=? c) && (c <=? 311) || (330 <=? c) && (c <=? 375))%N
     then [if N.even c then (c + 1)%N else c]
else if ((313 <=? c) && (c <=? 328) || (377 <=? c) && (c <=? 382))%N
     then [if N.odd c then (c + 1)%N else c]
else [c].

Definition latinLowerCase (s : jsstring) : jsstring := flat_map latinLowerUnit s.

Definition inLatinRange (s : jsstring) : bool := forallb (fun c => (c <=? 383)%N) s.

Fixpoint trimStart (s : jsstring) : jsstring :=
match s with
| [] => []
| c :: r => if isSpace c then trimStart r else s
end.

Definition trimEnd (s : jsstring) : jsstring := rev (trimStart (rev s)).

Definition trim (s : jsstring) : jsstring := trimEnd (trimStart s).

(** [s.startsWith(t)] and [s.includes(t)]. *)
Fixpoint startsWith (s t : jsstring) : bool :=
match t, s with
| [], _ => true
| _ :: _, [] => false
| a :: t', b :: s' => (a =? b)%N && startsWith s' t'
end.

Fixpoint includes (s t : jsstring) : bool :=
startsWith s t ||
match s with
| [] => false
| _ :: s' => includes s' t
end.

(** [s.replace(/[^\w\s]/g, '')] *)
Definition removeSpecial (s : jsstring) : jsstring :=
filter (fun c => isWord c || isSpace c) s.

(** [s.replace(/\s+/g, ' ')]: every maximal run of white space becomes one
  space.  [inRun] tells that the previous code unit was white space. *)
Fixpoint collapseFrom (inRun : bool) (s : jsstring) : jsstring :=
match s with
| [] => []
| c :: r =>
  if isSpace c
  then (if inRun then collapseFrom true r else 32%N :: collapseFrom true r)
  else c :: collapseFrom false r
end.

Definition collapseSpaces (s : jsstring) : jsstring := collapseFrom false s.

(** [s.split(/\s+/)]: the pieces between the maximal runs of white space;
  a run at either end leaves an empty piece there, and the empty string
  splits into one empty piece.  [cur] is the current piece, reversed. *)
Fixpoint splitFrom (inRun : bool) (cur : jsstring) (s : jsstring) : list jsstring :=
match s with
| [] => [rev cur]
| c :: r =>
  if isSpace c
  then (if inRun then splitFrom true [] r else rev cur :: splitFrom true [] r)
  else splitFrom false (c :: cur) r
end.

Definition splitSpaces (s : jsstring) : list jsstring := splitFrom false [] s.

(** [pieces.join(sep)] *)
Fixpoint join (sep : jsstring) (pieces : list jsstring) : jsstring :=
match pieces with
| [] => []
| [p] => p
| p :: rest => p ++ sep ++ join sep rest
end.

(** A string is truthy when it is not empty; an absent value is falsy. *)
Definition truthy (v : option jsstring) : bool :=
match v with
| Some (_ :: _) => true
| _ => false
end.

End JsString.

Import JsString.

(** ** Completions

    A JavaScript call either returns a value or throws; an [async] one
    resolves or rejects. *)

Inductive Completion (A : Type) : Type :=
| Returns (a : A)
| Throws (error : jsstring).

Arguments Returns {A} a.
Arguments Throws {A} error.

(** ** [Array.prototype.sort] with a comparator [(a, b) => key(b) - key(a)]

    The sort is stable (ECMAScript 2019), so its result is determined by the
    comparator: elements in descending order of their key, elements of equal
    key in their original order.  Insertion from the right computes that
    arrangement: the element inserted precedes, in the array, every element
    already placed, and goes in front of those whose key is not larger. *)

Section SortDescending.
Variable A : Type.
Variable key : A -> nat.

Fixpoint insertDesc (x : A) (l : list A) : list A :=
  match l with
  | [] => [x]
  | y :: l' => if key y <=? key x then x :: l else y :: insertDesc x l'
  end.

Fixpoint sortDesc (l : list A) : list A :=
  match l with
  | [] => []
  | x :: l' => insertDesc x (sortDesc l')
  end.

(** The order of the result. *)
Definition descending (a b : A) : Prop := key b <= key a.
End SortDescending.

Arguments insertDesc {A} key x l.
Arguments sortDesc {A} key l.
Arguments descending {A} key a b.

Definition nonEmpty {A : Type} (l : list A) : bool :=
  match l with
  | [] => false
  | _ :: _ => true
  end.

(** ** The data model of [json-data-service.ts] *)

Record Sculpture : Type := {
  name : jsstring;
  year : option jsstring;
  location : option jsstring;
  artist : option jsstring;
  cast_information : option jsstring;
  original_material : option jsstring;
  dimensions : option jsstring;
  description : option jsstring;
  style : option jsstring;
  artifacts : option (list jsstring);
  original_information : option jsstring
}.

Module GeneralInfo.
Record t : Type := make {
  title : jsstring;
  description : jsstring
}.
End GeneralInfo.

Record GeneralInformation : Type := {
  gallery_collection : GeneralInfo.t;
  gothic_style : GeneralInfo.t
}.

Record SculptureData : Type := {
  general_information : GeneralInformation;
  sculptures : list Sculpture
}.

(** The [params] object of [searchSculptures]. *)
Module Params.
Record t : Type := make {
  name : option jsstring;
  artist : option jsstring;
  location : option jsstring;
  year : option jsstring
}.
End Params.

(** The fields of a [JsonDataService] object. *)
Record JsonDataService : Type := {
  data : option SculptureData;
  dataPath : jsstring
}.

(** [new JsonDataService(dataPath)] *)
Definition newJsonDataService (path : jsstring) : JsonDataService :=
  {| data := None; dataPath := path |}.

(** A service whose document has been loaded. *)
Definition loaded (path : jsstring) (d : SculptureData) : JsonDataService :=
  {| data := Some d; dataPath := path |}.

(** The text of an optional string, read where the code has tested that it
    is there. *)
Definition valueOf (v : option jsstring) : jsstring :=
  match v with
  | Some s => s
  | None => []
  end.

(** ** The session of [session.ts]

    What a handler does to the outside (the client socket, the upstream
    conversation client, the logger) and the calls it makes on the data
    service are recorded, in order, as a list of effects. *)

Inductive Role : Type := System | User.

Inductive WSMessage : Type :=
| TextDelta (id delta : jsstring)
| Transcription (id text : jsstring)
| UserMessage (id text : jsstring)
| SpeechStarted
| Connected (greeting : jsstring)
| TextDone (id : jsstring).

Inductive Effect : Type :=
| Ws_send (message : WSMessage)
| Client_sendItem (role : Role) (text : jsstring)
| Event_waitForCompletion (id : jsstring)
| DataService_getSculptureByName (query : jsstring)
| DataService_searchSculptures (params : Params.t)
| Logger_debug (msg : jsstring)
| Logger_error (msg : jsstring).

(** The field of an [RTSession] the handlers below read and update. *)
Record RTSession : Type := {
  dataService : option JsonDataService
}.

(** An [RTInputAudioItem]: its id, how [waitForCompletion()] ends, and the
    [transcription] property read once it has ended. *)
Record RTInputAudioItem : Type := {
  id : jsstring;
  completion : Completion unit;
  transcription : option jsstring
}.

(** A handler: from the session before to the effects, the session after and
    the completion. *)
Definition M (A : Type) : Type :=
  RTSession -> (list Effect * RTSession) * Completion A.

Definition ret {A : Type} (a : A) : M A :=
  fun s => (([], s), Returns a).

Definition bind {A B : Type} (m : M A) (k : A -> M B) : M B :=
  fun s =>
    match m s with
    | ((t1, s1), Returns a) =>
      match k a s1 with
      | ((t2, s2), r) => ((t1 ++ t2, s2), r)
      end
    | ((t1, s1), Throws e) => ((t1, s1), Throws e)
    end.

Notation "x <- m ;; k" := (bind m (fun x => k))
  (at level 61, m at next level, right associativity).
Notation "m ;; k" := (bind m (fun _ => k))
  (at level 61, right associativity).

Definition throw {A : Type} (e : jsstring) : M A :=
  fun s => (([], s), Throws e).

Definition tryCatch {A : Type} (body : M A) (handler : jsstring -> M A) : M A :=
  fun s =>
    match body s with
    | ((t1, s1), Throws e) =>
      match handler e s1 with
      | ((t2, s2), r) => ((t1 ++ t2, s2), r)
      end
    | done => done
    end.

Definition emit (e : Effect) : M unit :=
  fun s => (([e], s), Returns tt).

Definition effectsOf {A : Type} (r : (list Effect * RTSession) * Completion A)
  : list Effect := fst (fst r).

(** The items a run has sent upstream, and the frames it has sent to the
    client socket. *)
Definition sentItems (t : list Effect) : list (Role * jsstring) :=
  flat_map (fun e => match e with
                     | Client_sendItem r x => [(r, x)]
                     | _ => []
                     end) t.

Definition sentFrames (t : list Effect) : list WSMessage :=
  flat_map (fun e => match e with
                     | Ws_send m => [m]
                     | _ => []
                     end) t.

Definition searchCalls (t : list Effect) : list Params.t :=
  flat_map (fun e => match e with
                     | DataService_searchSculptures p => [p]
                     | _ => []
                     end) t.

(** [formatSculptureInfo] *)
Definition infoLine (label : string) (v : option jsstring) : list jsstring :=
  if truthy v then [lit label ++ valueOf v] else [].

Definition formatSculpture (sculpture : Sculpture) : jsstring :=
  join [10%N]
    ([lit "Name: " ++ name sculpture]
     ++ infoLine "Year: " (year sculpture)
     ++ infoLine "Location: " (location sculpture)
     ++ infoLine "Artist: " (artist sculpture)
     ++ infoLine "Description: " (description sculpture)
     ++ infoLine "Cast Information: " (cast_information sculpture)
     ++ infoLine "Original Material: " (original_material sculpture)
     ++ infoLine "Dimensions: " (dimensions sculpture)).

Definition formatSculptureInfo (l : list Sculpture) : jsstring :=
  join [10%N; 10%N] (map formatSculpture l).

(** The two template strings of [enrichWithSculptureData]; 34 is the double
    quote and 10 the line feed. *)
Definition foundText (sculpture : Sculpture) (contextMessage : jsstring) : jsstring :=
  lit "I found information about " ++ [34%N] ++ name sculpture ++ [34%N]
  ++ lit " in our collection. Here are the details:" ++ [10%N]
  ++ contextMessage ++ [10%N; 10%N]
  ++ lit "Please provide this information to the user in a friendly, engaging way, focusing on the most relevant aspects to their question.".

Definition relevantText (contextMessage : jsstring) : jsstring :=
  lit "I found some relevant sculptures in our collection that might interest the user:"
  ++ [10%N] ++ contextMessage ++ [10%N; 10%N]
  ++ lit "Please use this information to provide a helpful, engaging response focused on the most relevant aspects to their question.".

(** ** The message and response handlers of [session.ts]

    Beside the effects above these handlers send audio upstream, ask for a
    response, close the upstream client and log at level info.  [Buffer] is
    the type of the bytes of a frame. *)

Inductive Action (Buffer : Type) : Type :=
| Did (e : Effect)
| Client_sendAudio (audio : Buffer)
| Client_generateResponse
| Client_close
| Logger_info (msg : jsstring).

Arguments Did {Buffer} e.
Arguments Client_sendAudio {Buffer} audio.
Arguments Client_generateResponse {Buffer}.
Arguments Client_close {Buffer}.
Arguments Logger_info {Buffer} msg.

(** An asynchronous iterable: what it yields, and how the iteration ends
    after the last value, normally or with an error. *)
Record AsyncIterable (A : Type) : Type := {
  yielded : list A;
  ending : Completion unit
}.

Arguments yielded {A} a.
Arguments ending {A} a.

(** An [RTTextContent]: the id of its item, its index there, and the
    stream [textChunks()]. *)
Record RTTextContent : Type := {
  itemId : jsstring;
  contentIndex : N;
  textChunks : AsyncIterable jsstring
}.

(** The contents of a message item, the items of a response and the events
    of the client; [RTAudioContent] is left to the audio handler. *)
Inductive RTContent (RTAudioContent : Type) : Type :=
| TextContent (content : RTTextContent)
| AudioContent (content : RTAudioContent).

Arguments TextContent {RTAudioContent} content.
Arguments AudioContent {RTAudioContent} content.

Inductive RTItem (RTAudioContent : Type) : Type :=
| MessageItem (contents : AsyncIterable (RTContent RTAudioContent))
| OtherItem.

Arguments MessageItem {RTAudioContent} contents.
Arguments OtherItem {RTAudioContent}.

Inductive RTEvent (RTAudioContent : Type) : Type :=
| ResponseEvent (response : AsyncIterable (RTItem RTAudioContent))
| InputAudioEvent (item : RTInputAudioItem)
| OtherEvent.

Arguments ResponseEvent {RTAudioContent} response.
Arguments InputAudioEvent {RTAudioContent} item.
Arguments OtherEvent {RTAudioContent}.

(** The decimal digits of a number: what a template literal gives for a
    non-negative integer below ten to the power 21.  It stands for
    [numberToString] where the handlers are run on an example. *)
Definition decimal (n : N) : jsstring :=
  lit (NilEmpty.string_of_uint (N.to_uint n)).

(** [for await (const x of iterable) body(x)] in a handler over [Effect]. *)
Fixpoint forAwaitFrom {A : Type} (values : list A) (last : Completion unit)
         (body : A -> M unit) : M unit :=
  match values with
  | [] => fun s => (([], s), last)
  | x :: rest => body x ;; forAwaitFrom rest last body
  end.

Definition forAwait {A : Type} (iterable : AsyncIterable A) (body : A -> M unit)
  : M unit :=
  forAwaitFrom (yielded iterable) (ending iterable) body.

(** A handler over [Action]. *)
Definition Handler (Buffer A : Type) : Type :=
  RTSession -> (list (Action Buffer) * RTSession) * Completion A.

Definition retH {Buffer A : Type} (a : A) : Handler Buffer A :=
  fun s => (([], s), Returns a).

Definition bindH {Buffer A B : Type} (m : Handler Buffer A) (k : A -> Handler Buffer B)
  : Handler Buffer B :=
  fun s =>
    match m s with
    | ((t1, s1), Returns a) =>
      match k a s1 with
      | ((t2, s2), r) => ((t1 ++ t2, s2), r)
      end
    | ((t1, s1), Throws e) => ((t1, s1), Throws e)
    end.

Declare Scope handler_scope.
Delimit Scope handler_scope with handler.

Notation "x <- m ;; k" := (bindH m (fun x => k))
  (at level 61, m at next level, right associativity) : handler_scope.
Notation "m ;; k" := (bindH m (fun _ => k))
  (at level 61, right associativity) : handler_scope.

Definition throwH {Buffer A : Type} (e : jsstring) : Handler Buffer A :=
  fun s => (([], s), Throws e).

Definition tryCatchH {Buffer A : Type} (body : Handler Buffer A)
           (handler : jsstring -> Handler Buffer A) : Handler Buffer A :=
  fun s =>
    match body s with
    | ((t1, s1), Throws e) =>
      match handler e s1 with
      | ((t2, s2), r) => ((t1 ++ t2, s2), r)
      end
    | done => done
    end.

Definition act {Buffer : Type} (a : Action Buffer) : Handler Buffer unit :=
  fun s => (([a], s), Returns tt).

(** A call upstream: the call made, and how it ends. *)
Definition call {Buffer : Type} (a : Action Buffer) (outcome : Completion unit)
  : Handler Buffer unit :=
  fun s => (([a], s), outcome).

(** A call whose promise is dropped: it is made, and how it ends is not
    looked at. *)
Definition notAwaited {Buffer A : Type} (m : Handler Buffer A) : Handler Buffer unit :=
  fun s => (fst (m s), Returns tt).

(** A handler over [Effect] run inside a handler over [Action]. *)
Definition lift {Buffer A : Type} (m : M A) : Handler Buffer A :=
  fun s =>
    match m s with
    | ((t, s'), r) => ((map Did t, s'), r)
    end.

Definition set_dataService {Buffer : Type} (service : option JsonDataService)
  : Handler Buffer unit :=
  fun _ => (([], {| dataService := service |}), Returns tt).

Fixpoint forAwaitFromH {Buffer A : Type} (values : list A)
         (last : Completion unit) (body : A -> Handler Buffer unit) : Handler Buffer unit :=
  match values with
  | [] => fun s => (([], s), last)
  | x :: rest => (body x ;; forAwaitFromH rest last body)%handler
  end.

Definition forAwaitH {Buffer A : Type} (iterable : AsyncIterable A)
           (body : A -> Handler Buffer unit) : Handler Buffer unit :=
  forAwaitFromH (yielded iterable) (ending iterable) body.

Definition actionsOf {Buffer A : Type}
           (r : (list (Action Buffer) * RTSession) * Completion A)
  : list (Action Buffer) := fst (fst r).

Definition sessionAfter {E A : Type} (r : (list E * RTSession) * Completion A)
  : RTSession := snd (fst r).

Definition completionOf {E A : Type} (r : (list E * RTSession) * Completion A)
  : Completion A := snd r.

(** The items of one role among the actions, the calls made upstream, and
    the frames sent to the client socket. *)
Definition itemsOfRole {Buffer : Type} (role : Role) (t : list (Action Buffer))
  : list jsstring :=
  flat_map (fun a => match a with
                     | Did (Client_sendItem r x) =>
                       match role, r with
                       | System, System | User, User => [x]
                       | _, _ => []
                       end
                     | _ => []
                     end) t.

Definition isUpstream {Buffer : Type} (a : Action Buffer) : bool :=
  match a with
  | Did (Client_sendItem _ _) => true
  | Client_sendAudio _ => true
  | Client_generateResponse => true
  | Client_close => true
  | _ => false
  end.

Definition framesOf {Buffer : Type} (t : list (Action Buffer)) : list WSMessage :=
  flat_map (fun a => match a with
                     | Did (Ws_send m) => [m]
                     | _ => []
                     end) t.

(** The persona and the list of the sculptures. *)
Definition personaPrompt : jsstring :=
  lit "You are a gallery guide helping visually impaired explore tactile artworks located in the National Gallery in Prague. The people you talk with have direct access to the artworks so your goal is to help them in their exploration. You have access to a detailed database of sculptures including:

1. Tympanum of the northern portal of the Church of Our Lady before Týn - A dramatic religious relief from around 1380
2. Charles the fourth - A remarkable royal bust from St. Vitus Ironworks
3. Anna of Schweidnitz - A beautiful portrait bust from St. Vitus Ironworks
4. Votive relief from the Basilica of St. George - A historic religious artwork from before 1228

When asked about these specific sculptures, use ONLY the information provided in the database. If asked about other sculptures or general art topics, clearly indicate when you're speaking from general knowledge rather than our specific collection.

Maintain a warm, engaging tone and focus on making art accessible and interesting for everyone. When describing sculptures, focus on the details provided in our database, including year, location, materials, dimensions, and the detailed descriptions provided.".

(** How to describe an artwork. *)
Definition descriptionPrompt : jsstring :=
  lit "If you are asked to describe an artwork, your answer should follow this template: Begin with a concise description of the painting. Focus on a reasoning process—why certain elements are prominent or meaningful in the artwork. Use vivid, sensory-rich language to help the user visualize or feel the scene. Describe the layout of the painting, logically guiding the user through the scene from one section to another. Mention how elements interact, considering balance, contrast, or composition techniques used by the artist. Move on to a discussion of the painting’s themes and deeper meanings. Reflect on how the painting’s style, colors, and objects contribute to the overall message or emotional experience.".

(** How answers should be structured. *)
Definition stylePrompt : jsstring :=
  lit "Avoid overwhelming the user with too much detail in one response; focus on developing their understanding step by step. Use only the information you are provided. If you are saying something that is not included in the data you are provided with, say it and acknowledge it.".

(** What the database holds. *)
Definition databasePrompt : jsstring :=
  lit "The database contains detailed information about medieval sculptures, including their historical context, materials, dimensions, and detailed descriptions. When discussing any sculpture, focus on the specific information provided in our database - including the cast information, original materials, dimensions, and historical descriptions. Share this information with enthusiasm and help users understand the historical and artistic significance of each piece. Respond as if you're giving a personal, engaging tour through a medieval art collection - knowledgeable but approachable and engaging.".

(** ** The dataset [data/sculptures.json] *)

Definition tympanum : Sculpture := {|
  name := lit "Tympanum of the northern portal of the Church of Our Lady before Týn";
  year := Some (lit "around 1380");
  location := Some (lit "Prague");
  artist := Some (lit "unknown");
  cast_information := Some (lit "patinated plaster, detail of the right side upper segment Devil Fight with an Angel for the Soul of an Evil Thief");
  original_material := Some (lit "marlstone, high relief");
  dimensions := Some (lit "whole height 232 cm, width 302.5 cm");
  description := Some (lit "The tympanum from the Church of Our Lady before Týn in Prague is an important monument from the reign of Wenceslas IV. It consists of five relief panels with passion scenes. The exhibited fragment of the Devil's Struggle for the Soul of the Evil Thief is only a small part of it. The devils are taking possession of the soul of a hardened thief. Three monsters with wild animal heads and a repulsive grin surround a figure struggling in mortal struggle. The devil on the right is holding the unfortunate man's left hand and leg tightly, while the other has grasped his right hand and his backward twisted head. The third one holds firmly the sole of the thief's right foot. The wrestling scene is the dramatic culmination of the tympanum decoration. Thoughtful movement dominates the entire composition. Originally, this relief was also polychromed.");
  style := None;
  artifacts := None;
  original_information := None
|}.

Definition charles_the_fourth : Sculpture := {|
  name := lit "Charles the fourth";
  year := Some (lit "between 1375 - 1378");
  location := Some (lit "St. Vitus Ironworks");
  artist := Some (lit "unknown");
  cast_information := Some (lit "epoxy resin, patinated");
  original_material := Some (lit "sandstone");
  dimensions := Some (lit "58 x 59 cm");
  description := Some (lit "Charles IV was in 14th century. We can see its appearance in mural, panel and book paintings, in mosaics, in goldsmithing, on seals and coins. Portrait of Charles IV from the triforium of the Church of St. Vitus Like the other portrait busts, the bust was made life-size, polychrome and supplemented with a coat of arms. The portraits of the members of the royal family are arranged in a strictly hierarchical order. In the most honorable place in the middle is a bust of Charles IV. The king has large, widely spaced eyes. The upper eyelid is emphasized by two thick lines, the lower one is almost straight. A slightly open mouth under a strong short nose is bordered by a plastically emphasized moustache and beard. The hair is covered on the sides by long wide ribbons ending in fringes. They overlap the raised edge of the collar. They are the remnants of a mitre – a liturgical headgear.");
  style := None;
  artifacts := None;
  original_information := None
|}.

Definition anna_of_schweidnitz : Sculpture := {|
  name := lit "Anna of Schweidnitz";
  year := Some (lit "between 1375 - 1378");
  location := Some (lit "St. Vitus Ironworks");
  artist := Some (lit "unknown");
  cast_information := Some (lit "patinated plaster");
  original_material := Some (lit "sandstone");
  dimensions := Some (lit "55 x 53 cm");
  description := Some (lit "On 27 May 1353, Princess Anne, the fourteen-year-old daughter of Duke Henry of Schweidnitz, became the third wife of the then thirty-seven-year-old Charles IV. Two months later she was crowned Queen of Bohemia in Prague and Queen of the Romans on 9 February 1354 in Aachen. The portrait of Anna of Schweidnitz is one of the most charming busts of the triforium. The oval face on a slender neck with a high, wide forehead is lined with long natural strands of hair that fall freely over the shoulders. A gentle smile, joyful eyes, a small narrow nose and a small chin remind us of the loveliness of Madonnas of the emerging beautiful style. Anna of Schweidnitz's life ended prematurely. She died a year after the birth of her son Wenceslas (born 26.2.1361), the long-awaited heir to the throne.");
  style := None;
  artifacts := None;
  original_information := None
|}.

Definition votive_relief : Sculpture := {|
  name := lit "Votive relief from the Basilica of St. George";
  year := Some (lit "before 1228");
  location := Some (lit "Bohemia");
  artist := Some (lit "unknown");
  cast_information := Some (lit "patinated plaster");
  original_material := None;
  dimensions := Some (lit "middle part height 88cm, width 57 cm, wings h. 66 cm, width 27 cm");
  description := Some (lit "The relief consists of three parts, most likely secondarily connected into one whole. The area of the middle panel is filled with the most important figure of the Virgin Mary sitting on the throne. He is holding the baby Jesus on his lap, depicted in profile and with his blessing right hand raised. In both upper corners, angels with censers float on clouds. They place a crown on Mary's head, which is surrounded by a halo, just like in the case of angels. The engraved Latin inscription on the frame depicts the small figures kneeling under the steps of the throne at Mary's feet. On the left, Princess Mlada, sister of Prince Boleslav II, is depicted with folded hands. She was the abbess of the first female Benedictine monastery of St. Vitus. George at Prague Castle, which was founded by her brother in 973. On the opposite side, the praying abbess Berta is depicted. On the right wing, as is clear from the preserved inscription on the edge of the frame, kneels King Přemysl Otakar I, on the opposite wing there is a praying nun, probably Abbess Agnes, the king's half-sister.");
  style := Some (lit "Oil on panel");
  artifacts := None;
  original_information := Some (lit "gold marlstone, remnants of original polychrome")
|}.

Definition gallery_collection_info : GeneralInfo.t :=
  GeneralInfo.make
    (lit "National Gallery Prague Cast Collection")
    (lit "The National Gallery Prague owns a large collection of casts of medieval works. More than a dozen works have been selected from these, which clearly document the stylistic transformation of the sculptural form from the Romanesque period to the late Gothic. The selection clearly shows how the approach of sculptors to the depiction of religious images and everyday reality has changed over the centuries. The exhibited collection captures copies of stone sculptures and carvings. The originals of some of them have remained for centuries in the places for which they were created. This is the case, for example, with the portrait busts from Prague's St. Vitus Cathedral or the beautiful Pilsen Madonna. Others can be found today in the gallery exhibition.").

Definition gothic_style_info : GeneralInfo.t :=
  GeneralInfo.make
    (lit "Gothic Sculpture")
    (lit "The Gothic style has its roots in France and came to our country indirectly, especially through the Rhineland, in the middle of the 13th century. Medieval sculpture was closely linked to architecture in the early period. The statues were placed outside and inside. They often decorated portals and vestibules, in the interior they were on consoles, columns and pillars, and complemented the decoration of altars. Later, sculptures were increasingly used outside of architecture, which is related to the transformation of their format and the variety of materials used. In addition to stone sculptures, usually made of marl or sandstone, a number of wood carvings have been preserved. In the Czech lands, linden wood was most often used, rarely fruit trees and conifers. Wood carvings, as well as some stone sculptures, were usually provided with a colour treatment – polychromy.").

Definition sculptures_json : SculptureData := {|
  general_information :=
    {| gallery_collection := gallery_collection_info;
       gothic_style := gothic_style_info |};
  sculptures := [tympanum; charles_the_fourth; anna_of_schweidnitz; votive_relief]
|}.

(** ** The vocabulary of the specification *)

(** [Selection P l l']: [l'] holds exactly the elements of [l] that satisfy
    [P], as often and in the order they occur in [l]. *)
Inductive Selection {A : Type} (P : A -> Prop) : list A -> list A -> Prop :=
| Selection_nil : Selection P [] []
| Selection_keep (x : A) (l l' : list A) :
    P x -> Selection P l l' -> Selection P (x :: l) (x :: l')
| Selection_drop (x : A) (l l' : list A) :
    ~ P x -> Selection P l l' -> Selection P (x :: l) l'.

(** A criterion is present when it is given and not empty; a record lacks an
    optional field when the field is absent or empty.  Both are what the
    truthiness tests of the code decide. *)
Definition present (v : option jsstring) : Prop := truthy v = true.
Definition lacks (v : option jsstring) : Prop := truthy v = false.

Definition anyPresent (params : Params.t) : Prop :=
  present (Params.name params) \/ present (Params.artist params)
  \/ present (Params.location params) \/ present (Params.year params).

Definition nonePresent (params : Params.t) : Prop :=
  ~ present (Params.name params) /\ ~ present (Params.artist params)
  /\ ~ present (Params.location params) /\ ~ present (Params.year params).

(** A string of white space only. *)
Definition allSpace (w : jsstring) : Prop := Forall (fun c => isSpace c = true) w.

(** A criterion that, if given, holds white space only. *)
Definition blank (v : option jsstring) : Prop := allSpace (valueOf v).

Definition nameLength (s : Sculpture) : nat := List.length (name s).

(** A record that has a name and nothing else. *)
Definition namedOnly (n : jsstring) : Sculpture :=
  {| name := n; year := None; location := None; artist := None;
     cast_information := None; original_material := None; dimensions := None;
     description := None; style := None; artifacts := None;
     original_information := None |}.

(** A host on which the file cannot be read, one on which every item is
    accepted upstream, and the session that has loaded the dataset. *)
Definition noFile : jsstring -> Completion jsstring :=
  fun _ => Throws (lit "ENOENT").

Definition noParse : jsstring -> Completion (option SculptureData) :=
  fun _ => Throws (lit "SyntaxError").

Definition accepted : Role -> jsstring -> Completion unit :=
  fun _ _ => Returns tt.

Definition galleryService : JsonDataService :=
  loaded (lit "data/sculptures.json") sculptures_json.

Definition gallerySession : RTSession :=
  {| dataService := Some galleryService |}.

(** A document with a record whose name is a question mark. *)
Definition untitledData : SculptureData :=
  {| general_information := general_information sculptures_json;
     sculptures := [namedOnly (lit "?"); namedOnly (lit "Anna")] |}.


(** A host whose file holds the dataset, and one whose file holds [null]. *)
Definition datasetFile : jsstring -> Completion jsstring :=
  fun _ => Returns (lit "dataset").

Definition parsesToDataset : jsstring -> Completion (option SculptureData) :=
  fun _ => Returns (Some sculptures_json).

Definition parsesToNull : jsstring -> Completion (option SculptureData) :=
  fun _ => Returns None.

(** ** Frames, streams and upstream clients for the examples *)

(** Frames are numbered: frame 0 is a user message, frame 1 a control
    message, every other frame is not JSON. *)
Definition exampleParse (frame : nat) : Completion WSMessage :=
  match frame with
  | 0 => Returns (UserMessage (lit "m1") (lit "tell me about Charles the fourth"))
  | 1 => Returns SpeechStarted
  | _ => Throws (lit "SyntaxError")
  end.

Definition audioAccepted : nat -> Completion unit := fun _ => Returns tt.

Definition audioIgnored : unit -> Handler nat unit := fun _ => retH tt.

Definition rejected : Role -> jsstring -> Completion unit :=
  fun _ _ => Throws (lit "closed").

(** A text content whose stream breaks after two chunks. *)
Definition brokenText : RTTextContent :=
  {| itemId := lit "item_1";
     contentIndex := 0;
     textChunks := {| yielded := [lit "Hel"; lit "lo"];
                      ending := Throws (lit "stream closed") |} |}.

(** An audio item whose completion fails. *)
Definition brokenAudio : RTInputAudioItem :=
  {| id := lit "item_2"; completion := Throws (lit "cancelled");
     transcription := None |}.

(** A document with two records whose names differ by a space at the end. *)
Definition paddedData : SculptureData :=
  {| general_information := general_information sculptures_json;
     sculptures := [namedOnly (lit "Anna of Schweidnitz "); anna_of_schweidnitz] |}.

Definition paddedService : JsonDataService :=
  loaded (lit "data/sculptures.json") paddedData.

(** ** What is asked of [String.prototype.toLowerCase]

    Each of these holds of the built-in.  White space has no case.  A
    string in lower case stays as it is.  The white space at the ends of
    a string neither changes nor influences how the rest is lower-cased.
    On the Latin blocks the built-in is the table above. *)
Definition keepsWhiteSpace (lowerCase : jsstring -> jsstring) : Prop :=
  forall w, allSpace w -> lowerCase w = w.


Definition commutesWithTrim (lowerCase : jsstring -> jsstring) : Prop :=
  forall s, lowerCase (trim s) = trim (lowerCase s).

Definition agreesOnLatin (lowerCase : jsstring -> jsstring) : Prop :=
  forall s, inLatinRange s = true -> lowerCase s = latinLowerCase s.

(** ** Tactics *)

(** Boolean tests on code units as propositions [lia] can use. *)
Ltac bools_in H :=
  repeat progress rewrite ?andb_true_iff, ?andb_false_iff, ?orb_true_iff,
    ?orb_false_iff, ?negb_true_iff, ?negb_false_iff, ?N.leb_le, ?N.leb_gt,
    ?N.eqb_eq, ?N.eqb_neq in H.

Ltac all_bools :=
  repeat match goal with
  | H : _ = true |- _ => progress bools_in H
  | H : _ = false |- _ => progress bools_in H
  end.

Ltac split_ifs :=
  repeat match goal with
  | |- context [if ?b then _ else _] => destruct b eqn:?
  end.


(** Every [lowerCase s] in the goal, for a given [s] in the Latin blocks,
    becomes [latinLowerCase s], by [H : agreesOnLatin lowerCase]. *)
Ltac lower_case_known lowerCase H :=
  repeat match goal with
  | |- context [lowerCase ?s] => rewrite (H s) by (vm_compute; reflexivity)
  end.

(** * The program

    The two classes, for any [toLowerCase] and any conversion of a number
    to a string by a template literal, [numberToString]. *)

Section Program.
(** [s.toLowerCase()] *)
Variable toLowerCase : jsstring -> jsstring.
(** [`${n}`] for a number [n] *)
Variable numberToString : N -> jsstring.

(** ** [JsonDataService] *)

(** [normalizeName] *)
Definition normalizeName (n : jsstring) : jsstring :=
  trim (collapseSpaces (removeSpecial (toLowerCase n))).

(** The three filters of [findSculptureByName], on the loaded document. *)
Definition searchNameOf (query : jsstring) : jsstring :=
  trim (toLowerCase query).

Definition exactMatches (d : SculptureData) (query : jsstring) : list Sculpture :=
  filter (fun sculpture => eqb (toLowerCase (name sculpture)) (searchNameOf query))
         (sculptures d).

Definition normalizedMatches (d : SculptureData) (query : jsstring) : list Sculpture :=
  let normalizedSearch := normalizeName (searchNameOf query) in
  filter (fun sculpture => eqb (normalizeName (name sculpture)) normalizedSearch)
         (sculptures d).

Definition partialMatches (d : SculptureData) (query : jsstring) : list Sculpture :=
  sortDesc (fun s => List.length (name s))
    (filter (fun sculpture => includes (toLowerCase (name sculpture)) (searchNameOf query))
            (sculptures d)).

(** The predicate [searchSculptures] filters with. *)
Definition fieldContains (field criterion : jsstring) : bool :=
  includes (toLowerCase field) (trim (toLowerCase criterion)).

Definition passesCriteria (params : Params.t) (sculpture : Sculpture) : bool :=
  if truthy (Params.name params)
     && negb (fieldContains (name sculpture) (valueOf (Params.name params)))
  then false
  else if truthy (Params.artist params) && truthy (artist sculpture)
     && negb (fieldContains (valueOf (artist sculpture)) (valueOf (Params.artist params)))
  then false
  else if truthy (Params.location params) && truthy (location sculpture)
     && negb (fieldContains (valueOf (location sculpture)) (valueOf (Params.location params)))
  then false
  else if truthy (Params.year params) && truthy (year sculpture)
     && negb (fieldContains (valueOf (year sculpture)) (valueOf (Params.year params)))
  then false
  else true.

(** The methods of [JsonDataService].  Each returns its result and the
    object after the call; the file system and [JSON.parse] are what the
    host provides.  [loadData] catches what either throws; the line it
    then writes to the console is left out. *)
Section DataService.
(** [fs.readFile(path, 'utf-8')] *)
Variable readFile : jsstring -> Completion jsstring.
(** [JSON.parse(text)], at the type the [data] field is declared with. *)
Variable JSON_parse : jsstring -> Completion (option SculptureData).

Definition loadData (self : JsonDataService) : bool * JsonDataService :=
  match readFile (dataPath self) with
  | Throws _ => (false, self)
  | Returns fileContent =>
    match JSON_parse fileContent with
    | Throws _ => (false, self)
    | Returns document => (true, {| data := document; dataPath := dataPath self |})
    end
  end.

(** [if (!this.data) await this.loadData();] *)
Definition loadIfMissing (self : JsonDataService) : JsonDataService :=
  match data self with
  | None => snd (loadData self)
  | Some _ => self
  end.

(** The getter [sculptures]. *)
Definition get_sculptures (self : JsonDataService) : list Sculpture :=
  match data self with
  | Some d => sculptures d
  | None => []
  end.

Definition findSculptureByName (self : JsonDataService) (query : jsstring)
  : list Sculpture * JsonDataService :=
  let self := loadIfMissing self in
  match data self with
  | None => ([], self)
  | Some d =>
    if nonEmpty (exactMatches d query) then (exactMatches d query, self)
    else if nonEmpty (normalizedMatches d query) then (normalizedMatches d query, self)
    else (partialMatches d query, self)
  end.

Definition getSculptureByName (self : JsonDataService) (query : jsstring)
  : option Sculpture * JsonDataService :=
  let (matches, self) := findSculptureByName self query in
  (match matches with
   | first :: _ => Some first
   | [] => None
   end, self).

Definition searchSculptures (self : JsonDataService) (params : Params.t)
  : list Sculpture * JsonDataService :=
  let self := loadIfMissing self in
  match data self with
  | None => ([], self)
  | Some d =>
    if negb (truthy (Params.name params)) && negb (truthy (Params.artist params))
       && negb (truthy (Params.location params)) && negb (truthy (Params.year params))
    then ([], self)
    else (filter (passesCriteria params) (sculptures d), self)
  end.

Definition getGalleryInfo (self : JsonDataService)
  : option GeneralInfo.t * JsonDataService :=
  let self := loadIfMissing self in
  (match data self with
   | Some d => Some (gallery_collection (general_information d))
   | None => None
   end, self).

Definition getGothicStyleInfo (self : JsonDataService)
  : option GeneralInfo.t * JsonDataService :=
  let self := loadIfMissing self in
  (match data self with
   | Some d => Some (gothic_style (general_information d))
   | None => None
   end, self).

(** The file is absent, or its text does not parse. *)
Definition loadFails (path : jsstring) : Prop :=
  (exists e, readFile path = Throws e)
  \/ (exists text e, readFile path = Returns text /\ JSON_parse text = Throws e).
End DataService.

(** ** [RTSession]: the enrichment and the input audio *)

(** The names of the records the message mentions. *)
Definition potentialNamesOf (l : list Sculpture) (userMessage : jsstring)
  : list jsstring :=
  filter (fun n => includes (toLowerCase userMessage) (toLowerCase n))
         (map name l).

(** [words.join(" ")] for [words = userMessage.toLowerCase().split(/\s+/)] *)
Definition joinedWords (userMessage : jsstring) : jsstring :=
  join (lit " ") (splitSpaces (toLowerCase userMessage)).

Definition broadParams (userMessage : jsstring) : Params.t :=
  Params.make (Some (joinedWords userMessage)) (Some (joinedWords userMessage))
              (Some (joinedWords userMessage)) (Some (joinedWords userMessage)).

Section Session.
Variable readFile : jsstring -> Completion jsstring.
Variable JSON_parse : jsstring -> Completion (option SculptureData).
(** How [this.client.sendItem] of a text item ends. *)
Variable sendItem : Role -> jsstring -> Completion unit.

Definition get_dataService : M (option JsonDataService) :=
  fun s => (([], s), Returns (dataService s)).

(** A method call on [this.dataService]; on [null] it is a [TypeError]. *)
Definition onDataService {A : Type} (call : Effect)
           (method : JsonDataService -> A * JsonDataService) : M A :=
  fun s =>
    match dataService s with
    | Some service =>
      let (result, service') := method service in
      (([call], {| dataService := Some service' |}), Returns result)
    | None => (([], s), Throws (lit "TypeError"))
    end.

Definition dataService_sculptures : M (list Sculpture) :=
  fun s =>
    match dataService s with
    | Some service => (([], s), Returns (get_sculptures service))
    | None => (([], s), Throws (lit "TypeError"))
    end.

Definition dataService_getSculptureByName (query : jsstring) : M (option Sculpture) :=
  onDataService (DataService_getSculptureByName query)
                (fun service => getSculptureByName readFile JSON_parse service query).

Definition dataService_searchSculptures (params : Params.t) : M (list Sculpture) :=
  onDataService (DataService_searchSculptures params)
                (fun service => searchSculptures readFile JSON_parse service params).

Definition client_sendItem (role : Role) (text : jsstring) : M unit :=
  fun s => (([Client_sendItem role text], s), sendItem role text).

Definition waitForCompletion (event : RTInputAudioItem) : M unit :=
  fun s => (([Event_waitForCompletion (id event)], s), completion event).

(** [enrichWithSculptureData]; [returned] tells that the first branch has
    ended the call with its [return]. *)
Definition enrichWithSculptureData (userMessage : jsstring) : M unit :=
  service <- get_dataService ;;
  match service with
  | None => ret tt
  | Some _ =>
    tryCatch
      (all <- dataService_sculptures ;;
       let potentialNames := potentialNamesOf all userMessage in
       returned <-
         (if nonEmpty potentialNames then
            let bestMatch := hd [] (sortDesc (@List.length N) potentialNames) in
            sculpture <- dataService_getSculptureByName bestMatch ;;
            match sculpture with
            | Some sculpture =>
              let contextMessage := formatSculptureInfo [sculpture] in
              client_sendItem System (foundText sculpture contextMessage) ;;
              ret true
            | None => ret false
            end
          else ret false) ;;
       if (returned : bool) then ret tt
       else
         results <- dataService_searchSculptures (broadParams userMessage) ;;
         if nonEmpty results
         then client_sendItem System (relevantText (formatSculptureInfo results))
         else ret tt)
      (fun error =>
         emit (Logger_error (lit "Error enriching message with sculpture data")))
  end.

(** [handleInputAudio] *)
Definition handleInputAudio (event : RTInputAudioItem) : M unit :=
  tryCatch
    (emit (Ws_send SpeechStarted) ;;
     waitForCompletion event ;;
     let text := if truthy (transcription event)
                 then valueOf (transcription event) else lit "" in
     emit (Ws_send (Transcription (id event) text)) ;;
     emit (Logger_debug (lit "Input audio processed successfully")))
    (fun error =>
       emit (Logger_error (lit "Error handling input audio")) ;;
       throw error).

(** What follows a [sendItem] inside the [try] of the enrichment: nothing
    when it resolves, the logged error when it rejects. *)
Definition afterSend (role : Role) (text : jsstring) : list Effect :=
  match sendItem role text with
  | Returns _ => []
  | Throws _ => [Logger_error (lit "Error enriching message with sculpture data")]
  end.
End Session.

(** ** [RTSession]: the messages, the responses and the event loop *)

(** [`${content.itemId}-${content.contentIndex}`] *)
Definition contentIdOf (content : RTTextContent) : jsstring :=
  itemId content ++ lit "-" ++ numberToString (contentIndex content).

(** [handleTextContent] *)
Definition handleTextContent (content : RTTextContent) : M unit :=
  tryCatch
    (let contentId := contentIdOf content in
     forAwait (textChunks content)
              (fun text => emit (Ws_send (TextDelta contentId text))) ;;
     emit (Ws_send (TextDone contentId)) ;;
     emit (Logger_debug (lit "Text content processed successfully")))
    (fun error =>
       emit (Logger_error (lit "Error handling text content")) ;;
       throw error).

(** The frames a text content brings to the client socket when its stream
    ends normally. *)
Definition textFrames (content : RTTextContent) : list WSMessage :=
  map (TextDelta (contentIdOf content)) (yielded (textChunks content))
  ++ [TextDone (contentIdOf content)].

Section Handlers.
Variable Buffer : Type.
Variable RTAudioContent : Type.
Variable readFile : jsstring -> Completion jsstring.
Variable JSON_parse : jsstring -> Completion (option SculptureData).
(** The upstream client: how [sendItem], [sendAudio], [generateResponse] and
    [close] end. *)
Variable sendItem : Role -> jsstring -> Completion unit.
Variable sendAudio : Buffer -> Completion unit.
Variable generateResponse : Completion unit.
Variable close : Completion unit.
(** [JSON.parse(message.toString("utf-8"))], at the type [WSMessage]. *)
Variable parseMessage : Buffer -> Completion WSMessage.
(** [handleAudioContent], whose two loops run concurrently. *)
Variable handleAudioContent : RTAudioContent -> Handler Buffer unit.

(** [initializeDataService], for the resolved path of the dataset. *)
Definition initializeDataService (dataPath : jsstring) : Handler Buffer unit :=
  tryCatchH
    (set_dataService (Some (newJsonDataService dataPath)) ;;
     loaded <- (fun s =>
                  match dataService s with
                  | Some service =>
                    let (result, service') := loadData readFile JSON_parse service in
                    (([], {| dataService := Some service' |}), Returns result)
                  | None => (([], s), Throws (lit "TypeError"))
                  end) ;;
     if (loaded : bool)
     then act (Logger_info (lit "Successfully loaded sculpture data from " ++ dataPath))
     else
       act (Did (Logger_error (lit "Failed to load sculpture data from " ++ dataPath))) ;;
       set_dataService None)%handler
    (fun error =>
       (act (Did (Logger_error (lit "Error initializing data service"))) ;;
        set_dataService None)%handler).

(** [handleBinaryMessage] *)
Definition handleBinaryMessage (message : Buffer) : Handler Buffer unit :=
  tryCatchH
    (call (Client_sendAudio message) (sendAudio message))
    (fun error =>
       (act (Did (Logger_error (lit "Failed to send audio data"))) ;;
        throwH error)%handler).

(** [handleTextMessage] *)
Definition handleTextMessage (message : Buffer) : Handler Buffer unit :=
  (parsed <- (fun s => (([], s), parseMessage message)) ;;
   act (Did (Logger_debug (lit "Received text message"))) ;;
   match parsed with
   | UserMessage _ text =>
     tryCatchH
       (service <- (fun s => (([], s), Returns (dataService s))) ;;
        (match service with
         | Some _ =>
           if truthy (Some text)
           then lift (enrichWithSculptureData readFile JSON_parse sendItem text)
           else retH tt
         | None => retH tt
         end) ;;
        call (Did (Client_sendItem User text)) (sendItem User text) ;;
        call Client_generateResponse generateResponse ;;
        act (Did (Logger_debug (lit "User message processed successfully"))))
       (fun error =>
          act (Did (Logger_error (lit "Failed to process user message"))) ;;
          throwH error)
   | _ => retH tt
   end)%handler.

(** What follows the user's item in [handleTextMessage]: the request for a
    response when the item was accepted, and the log of the outcome. *)
Definition afterUserItem (text : jsstring) : list (Action Buffer) :=
  match sendItem User text with
  | Returns _ =>
    Client_generateResponse
    :: match generateResponse with
       | Returns _ => [Did (Logger_debug (lit "User message processed successfully"))]
       | Throws _ => [Did (Logger_error (lit "Failed to process user message"))]
       end
  | Throws _ => [Did (Logger_error (lit "Failed to process user message"))]
  end.

(** The effects of the enrichment [handleTextMessage] runs first: none
    without a data service or for an empty text. *)
Definition enrichmentOf (text : jsstring) (s : RTSession) : list Effect :=
  match dataService s with
  | Some _ =>
    if truthy (Some text)
    then effectsOf (enrichWithSculptureData readFile JSON_parse sendItem text s)
    else []
  | None => []
  end.

(** [handleMessage] *)
Definition handleMessage (message : Buffer) (isBinary : bool) : Handler Buffer unit :=
  tryCatchH
    (if isBinary then handleBinaryMessage message else handleTextMessage message)
    (fun error => act (Did (Logger_error (lit "Error handling message")))).

(** [handleClose] *)
Definition handleClose : Handler Buffer unit :=
  (act (Logger_info (lit "Session closing")) ;;
   tryCatchH
     (call Client_close close ;;
      act (Logger_info (lit "Session closed successfully")))
     (fun error => act (Did (Logger_error (lit "Error closing session")))))%handler.

(** The bodies of the two loops of [handleResponse]. *)
Definition handleContent (content : RTContent RTAudioContent) : Handler Buffer unit :=
  match content with
  | TextContent c => lift (handleTextContent c)
  | AudioContent c => handleAudioContent c
  end.

Definition handleItem (item : RTItem RTAudioContent) : Handler Buffer unit :=
  match item with
  | MessageItem contents => forAwaitH contents handleContent
  | OtherItem => retH tt
  end.

(** [handleResponse] *)
Definition handleResponse (event : AsyncIterable (RTItem RTAudioContent))
  : Handler Buffer unit :=
  tryCatchH
    (forAwaitH event handleItem ;;
     act (Did (Logger_debug (lit "Response handled successfully"))))%handler
    (fun error =>
       (act (Did (Logger_error (lit "Error handling response"))) ;;
        throwH error)%handler).

(** The body of the loop of [startEventLoop]. *)
Definition handleEvent (event : RTEvent RTAudioContent) : Handler Buffer unit :=
  match event with
  | ResponseEvent response => handleResponse response
  | InputAudioEvent item => lift (handleInputAudio item)
  | OtherEvent => retH tt
  end.

(** What [startEventLoop] does before its loop: the first item is awaited,
    the three others are not. *)
Definition seedConversation : Handler Buffer unit :=
  (call (Did (Client_sendItem System personaPrompt))
        (sendItem System personaPrompt) ;;
   notAwaited (call (Did (Client_sendItem System descriptionPrompt))
                    (sendItem System descriptionPrompt)) ;;
   notAwaited (call (Did (Client_sendItem System stylePrompt))
                    (sendItem System stylePrompt)) ;;
   notAwaited (call (Did (Client_sendItem System databasePrompt))
                    (sendItem System databasePrompt)))%handler.

(** [startEventLoop], for the stream [this.client.events()]. *)
Definition startEventLoop (events : AsyncIterable (RTEvent RTAudioContent))
  : Handler Buffer unit :=
  (seedConversation ;;
   tryCatchH
     (act (Did (Logger_debug (lit "Starting event loop"))) ;;
      forAwaitH events handleEvent)
     (fun error =>
        act (Did (Logger_error (lit "Error in event loop"))) ;;
        throwH error))%handler.
End Handlers.

(** ** What the specification says of a search *)

(** The lower-cased field contains the lower-cased trimmed criterion. *)
Definition Contains (field criterion : jsstring) : Prop :=
  exists pre post,
    toLowerCase field = pre ++ trim (toLowerCase criterion) ++ post.

(** What the specification asks of a record for it to pass a search. *)
Definition Accepts (params : Params.t) (s : Sculpture) : Prop :=
  (present (Params.name params) -> Contains (name s) (valueOf (Params.name params)))
  /\ (present (Params.artist params) ->
      lacks (artist s)
      \/ Contains (valueOf (artist s)) (valueOf (Params.artist params)))
  /\ (present (Params.location params) ->
      lacks (location s)
      \/ Contains (valueOf (location s)) (valueOf (Params.location params)))
  /\ (present (Params.year params) ->
      lacks (year s)
      \/ Contains (valueOf (year s)) (valueOf (Params.year params))).

(** Two criteria the search cannot tell apart: both absent or empty, or both
    given and not empty and the same once lower-cased and trimmed. *)
Definition sameCriterion (v v' : option jsstring) : Prop :=
  truthy v = truthy v'
  /\ trim (toLowerCase (valueOf v)) = trim (toLowerCase (valueOf v')).

(** * Properties *)

(** ** Strings *)

Lemma eqb_eq (s t : jsstring) : eqb s t = true <-> s = t.
Proof.
  unfold eqb. destruct (list_eq_dec N.eq_dec s t); split; congruence.
Qed.

Lemma isSpace_true (c : N) :
  isSpace c = true <->
  (9 <= c <= 13 \/ c = 32 \/ c = 160 \/ c = 5760 \/ 8192 <= c <= 8202
   \/ c = 8232 \/ c = 8233 \/ c = 8239 \/ c = 8287 \/ c = 12288 \/ c = 65279)%N.
Proof.
  unfold isSpace.
  rewrite !orb_true_iff, !andb_true_iff, !N.leb_le, !N.eqb_eq.
  clear. tauto.
Qed.

Lemma isSpace_false (c : N) :
  ~ (9 <= c <= 13 \/ c = 32 \/ c = 160 \/ c = 5760 \/ 8192 <= c <= 8202
     \/ c = 8232 \/ c = 8233 \/ c = 8239 \/ c = 8287 \/ c = 12288 \/ c = 65279)%N ->
  isSpace c = false.
Proof.
  intros H. destruct (isSpace c) eqn:E; [|reflexivity].
  apply isSpace_true in E. contradiction.
Qed.

(** The table leaves white space as it is. *)
Lemma latinLowerUnit_space (c : N) : isSpace c = true -> latinLowerUnit c = [c].
Proof.
  intros H. apply isSpace_true in H. unfold latinLowerUnit.
  split_ifs; try reflexivity; exfalso; all_bools; lia.
Qed.

(** What the table gives for a code unit that is not white space is not
    empty and holds no white space. *)
Lemma latinLowerUnit_nonspace (c : N) :
  isSpace c = false ->
  latinLowerUnit c <> [] /\ Forall (fun x => isSpace x = false) (latinLowerUnit c).
Proof.
  intros H. unfold latinLowerUnit.
  split_ifs; (split; [discriminate|]); all_bools;
  repeat constructor; try assumption; apply isSpace_false; lia.
Qed.

Lemma latinLowerCase_app (s t : jsstring) :
  latinLowerCase (s ++ t) = latinLowerCase s ++ latinLowerCase t.
Proof. apply flat_map_app. Qed.

Lemma latinLowerCase_space (w : jsstring) :
  Forall (fun c => isSpace c = true) w -> latinLowerCase w = w.
Proof.
  induction 1 as [|c w Hc _ IH]; [reflexivity|].
  unfold latinLowerCase in *. simpl. rewrite (latinLowerUnit_space _ Hc), IH. reflexivity.
Qed.





Lemma startsWith_spec (s t : jsstring) :
  startsWith s t = true <-> exists post, s = t ++ post.
Proof.
  revert s. induction t as [|a t IH]; intros s; simpl.
  - split; [exists s; reflexivity | destruct s; reflexivity].
  - destruct s as [|b s].
    + split; [discriminate | intros [post H]; discriminate].
    + simpl. rewrite andb_true_iff, N.eqb_eq, IH. split.
      * intros [-> [post ->]]. now exists post.
      * intros [post H]. injection H as -> ->. split; [reflexivity | now exists post].
Qed.

Lemma includes_spec (s t : jsstring) :
  includes s t = true <-> exists pre post, s = pre ++ t ++ post.
Proof.
  induction s as [|c s IH]; cbn [includes]; rewrite orb_true_iff, startsWith_spec.
  - split.
    + intros [[post H]|H]; [|discriminate]. exists [], post. exact H.
    + intros [pre [post H]]. left. destruct pre; [now exists post|discriminate].
  - rewrite IH. split.
    + intros [[post H]|[pre [post ->]]].
      * exists [], post. exact H.
      * now exists (c :: pre), post.
    + intros [[|x pre] [post H]].
      * left. now exists post.
      * right. injection H as -> ->. now exists pre, post.
Qed.

Lemma includes_nil (s : jsstring) : includes s [] = true.
Proof. apply includes_spec. now exists [], s. Qed.

Lemma includes_refl (s : jsstring) : includes s s = true.
Proof. apply includes_spec. exists [], []. now rewrite app_nil_r. Qed.

Lemma trimStart_split (s : jsstring) :
  exists w, allSpace w /\ s = w ++ trimStart s.
Proof.
  induction s as [|c s [w [Hw IH]]]; simpl.
  - exists []. split; [constructor | reflexivity].
  - destruct (isSpace c) eqn:E.
    + exists (c :: w). split; [now constructor | now rewrite IH at 1].
    + exists []. split; [constructor | reflexivity].
Qed.

Lemma trimStart_head (s r : jsstring) (c : N) :
  trimStart s = c :: r -> isSpace c = false.
Proof.
  induction s as [|x s IH]; simpl; [discriminate|].
  destruct (isSpace x) eqn:E; [exact IH|]. intros H. now injection H as <- _.
Qed.

Lemma trimStart_app_space (w y : jsstring) :
  allSpace w -> trimStart (w ++ y) = trimStart y.
Proof.
  induction 1 as [|c w Hc _ IH]; simpl; [reflexivity|]. now rewrite Hc.
Qed.

Lemma trimStart_allSpace (w : jsstring) : allSpace w -> trimStart w = [].
Proof.
  intros H. rewrite <- (app_nil_r w). now rewrite trimStart_app_space.
Qed.

Lemma trimStart_fixed (c : N) (r : jsstring) :
  isSpace c = false -> trimStart (c :: r) = c :: r.
Proof. intros H. simpl. now rewrite H. Qed.

Lemma trimStart_app_keep (z e : jsstring) :
  trimStart z <> [] -> trimStart (z ++ e) = trimStart z ++ e.
Proof.
  induction z as [|c z IH]; simpl; [congruence|].
  destruct (isSpace c); [exact IH | reflexivity].
Qed.

Lemma allSpace_rev (w : jsstring) : allSpace w -> allSpace (rev w).
Proof.
  unfold allSpace. rewrite !Forall_forall. intros H x Hx.
  apply H. now apply in_rev.
Qed.

Lemma trimEnd_app_space (t e : jsstring) :
  allSpace e -> trimEnd (t ++ e) = trimEnd t.
Proof.
  intros H. unfold trimEnd. rewrite rev_app_distr.
  now rewrite trimStart_app_space by now apply allSpace_rev.
Qed.

Lemma trimEnd_split (s : jsstring) :
  exists w, allSpace w /\ s = trimEnd s ++ w.
Proof.
  destruct (trimStart_split (rev s)) as [w [Hw H]].
  exists (rev w). split; [now apply allSpace_rev|].
  unfold trimEnd. rewrite <- rev_app_distr, <- H. now rewrite rev_involutive.
Qed.

Lemma trimEnd_keep (a : jsstring) (x : N) :
  isSpace x = false -> trimEnd (a ++ [x]) = a ++ [x].
Proof.
  intros H. unfold trimEnd. rewrite rev_app_distr. simpl.
  rewrite H. simpl. now rewrite rev_involutive.
Qed.

Lemma trimEnd_last (s : jsstring) :
  trimEnd s = [] \/ exists a x, trimEnd s = a ++ [x] /\ isSpace x = false.
Proof.
  unfold trimEnd. destruct (trimStart (rev s)) as [|c r] eqn:E.
  - now left.
  - right. exists (rev r), c. split; [reflexivity|]. eapply trimStart_head, E.
Qed.

Lemma trim_app_space_l (w z : jsstring) : allSpace w -> trim (w ++ z) = trim z.
Proof. intros H. unfold trim. now rewrite trimStart_app_space. Qed.

Lemma trim_app_space_r (z e : jsstring) : allSpace e -> trim (z ++ e) = trim z.
Proof.
  intros H. unfold trim. destruct (trimStart z) as [|c r] eqn:E.
  - destruct (trimStart_split z) as [w [Hw Hz]]. rewrite E, app_nil_r in Hz.
    subst w. rewrite trimStart_allSpace; [reflexivity|].
    apply Forall_app. now split.
  - rewrite trimStart_app_keep by congruence. rewrite E.
    now apply trimEnd_app_space.
Qed.

Lemma trim_allSpace (w : jsstring) : allSpace w -> trim w = [].
Proof. intros H. unfold trim. now rewrite trimStart_allSpace. Qed.

Lemma trim_split (s : jsstring) :
  exists w1 w2, allSpace w1 /\ allSpace w2 /\ s = w1 ++ trim s ++ w2.
Proof.
  destruct (trimStart_split s) as [w1 [H1 Hs]].
  destruct (trimEnd_split (trimStart s)) as [w2 [H2 Ht]].
  exists w1, w2. repeat split; try assumption.
  unfold trim. now rewrite <- Ht.
Qed.

Lemma includes_trim (s : jsstring) : includes s (trim s) = true.
Proof.
  apply includes_spec. destruct (trim_split s) as [w1 [w2 [_ [_ H]]]].
  now exists w1, w2.
Qed.

(** Lower-casing by the table and trimming commute. *)
Lemma latinLowerCase_trimStart (s : jsstring) :
  latinLowerCase (trimStart s) = trimStart (latinLowerCase s).
Proof.
  induction s as [|c s IH]; [reflexivity|].
  change (latinLowerCase (c :: s)) with (latinLowerUnit c ++ latinLowerCase s).
  simpl. destruct (isSpace c) eqn:E.
  - rewrite (latinLowerUnit_space _ E). simpl. now rewrite E.
  - change (latinLowerCase (c :: s)) with (latinLowerUnit c ++ latinLowerCase s).
    destruct (latinLowerUnit_nonspace _ E) as [Hne Hall].
    destruct (latinLowerUnit c) as [|y u]; [congruence|].
    inversion Hall; subst. simpl. now rewrite H1.
Qed.

Lemma latinLowerCase_trimEnd (s : jsstring) :
  latinLowerCase (trimEnd s) = trimEnd (latinLowerCase s).
Proof.
  destruct (trimEnd_split s) as [w [Hw Hs]].
  rewrite Hs at 2. rewrite latinLowerCase_app, (latinLowerCase_space _ Hw).
  rewrite trimEnd_app_space by assumption.
  destruct (trimEnd_last s) as [->|[a [x [-> Hx]]]]; [reflexivity|].
  rewrite latinLowerCase_app.
  change (latinLowerCase [x]) with (latinLowerUnit x ++ []). rewrite app_nil_r.
  destruct (latinLowerUnit_nonspace _ Hx) as [Hne Hall].
  destruct (exists_last Hne) as [u [y Hu]]. rewrite Hu in *.
  apply Forall_app in Hall. destruct Hall as [_ Hy]. inversion Hy; subst.
  rewrite app_assoc. symmetry. now apply trimEnd_keep.
Qed.

Lemma latinLowerCase_trim (s : jsstring) :
  latinLowerCase (trim s) = trim (latinLowerCase s).
Proof.
  unfold trim. now rewrite latinLowerCase_trimEnd, latinLowerCase_trimStart.
Qed.

(** ** [normalizeName] *)


Lemma removeSpecial_space (w : jsstring) : allSpace w -> removeSpecial w = w.
Proof.
  induction 1 as [|c w Hc _ IH]; [reflexivity|].
  unfold removeSpecial in *. simpl. rewrite Hc, orb_true_r. now f_equal.
Qed.

Lemma isSpace_32 : isSpace 32 = true.
Proof. reflexivity. Qed.

Lemma collapseFrom_allSpace (b : bool) (w : jsstring) :
  allSpace w -> allSpace (collapseFrom b w).
Proof.
  intros H. revert b. induction H as [|c w Hc _ IH]; intros b; simpl.
  - constructor.
  - rewrite Hc. destruct b; [apply IH|]. constructor; [exact isSpace_32 | apply IH].
Qed.







(** A string of white space normalizes to the empty string. *)
Lemma normalizeName_blank (w : jsstring) :
  keepsWhiteSpace toLowerCase -> allSpace w -> normalizeName w = [].
Proof.
  intros Hk Hw. unfold normalizeName. rewrite (Hk w Hw).
  rewrite (removeSpecial_space _ Hw). apply trim_allSpace.
  now apply collapseFrom_allSpace.
Qed.

Lemma normalizeName_nil_of_lower_nil (n : jsstring) :
  toLowerCase n = [] -> normalizeName n = [].
Proof. unfold normalizeName. now intros ->. Qed.

Lemma join_cons (sep p : jsstring) (rest : list jsstring) :
  exists more, join sep (p :: rest) = p ++ more.
Proof.
  destruct rest as [|q rest].
  - exists []. simpl. now rewrite app_nil_r.
  - now exists (sep ++ join sep (q :: rest)).
Qed.

(** [join(" ")] after [split(/\s+/)] collapses the runs of white space. *)
Lemma splitFrom_not_nil (b : bool) (cur s : jsstring) : splitFrom b cur s <> [].
Proof.
  revert b cur. induction s as [|c s IH]; intros b cur; simpl; [discriminate|].
  destruct (isSpace c); [destruct b|]; try apply IH. discriminate.
Qed.

Lemma join_splitFrom (b : bool) (cur s : jsstring) :
  (b = true -> cur = []) ->
  join [32%N] (splitFrom b cur s) = rev cur ++ collapseFrom b s.
Proof.
  revert b cur. induction s as [|c s IH]; intros b cur Hb; simpl.
  - now rewrite app_nil_r.
  - destruct (isSpace c).
    + destruct b; [rewrite (Hb eq_refl); now apply IH|].
      change (join [32%N] (rev cur :: splitFrom true [] s))
        with (match splitFrom true [] s with
              | [] => rev cur
              | _ :: _ => rev cur ++ [32%N] ++ join [32%N] (splitFrom true [] s)
              end).
      specialize (IH true [] (fun _ => eq_refl)). simpl in IH.
      destruct (splitFrom true [] s) eqn:E.
      * now apply splitFrom_not_nil in E.
      * now rewrite IH.
    + rewrite IH by discriminate. simpl. now rewrite <- app_assoc.
Qed.


Lemma In_collapseFrom (b : bool) (s : jsstring) (x : N) :
  In x (collapseFrom b s) -> x = 32%N \/ (In x s /\ isSpace x = false).
Proof.
  clear. revert b. induction s as [|c s IH]; intros b; simpl; [tauto|].
  destruct (isSpace c) eqn:E; [destruct b|]; simpl; intros H.
  - destruct (IH _ H) as [?|[? ?]]; auto.
  - destruct H as [<-|H]; [now left|]. destruct (IH _ H) as [?|[? ?]]; auto.
  - destruct H as [<-|H]; [now right; auto|]. destruct (IH _ H) as [?|[? ?]]; auto.
Qed.

(** ** The descending stable sort *)

Section SortDescendingFacts.
Variable A : Type.
Variable key : A -> nat.

Lemma insertDesc_perm (x : A) (l : list A) :
  Permutation (insertDesc key x l) (x :: l).
Proof.
  induction l as [|y l IH]; simpl; [apply Permutation_refl|].
  destruct (key y <=? key x); [apply Permutation_refl|].
  eapply Permutation_trans; [apply perm_skip, IH | apply perm_swap].
Qed.

Lemma sortDesc_perm (l : list A) : Permutation (sortDesc key l) l.
Proof.
  induction l as [|x l IH]; simpl; [constructor|].
  eapply Permutation_trans; [apply insertDesc_perm | now apply perm_skip].
Qed.

Lemma sortDesc_In (l : list A) (x : A) : In x (sortDesc key l) <-> In x l.
Proof.
  split; apply Permutation_in;
    [apply sortDesc_perm | apply Permutation_sym, sortDesc_perm].
Qed.

Lemma insertDesc_sorted (x : A) (l : list A) :
  StronglySorted (descending key) l -> StronglySorted (descending key) (insertDesc key x l).
Proof.
  induction 1 as [|y l Hs IH Hy]; simpl.
  - repeat constructor.
  - destruct (key y <=? key x) eqn:E.
    + apply Nat.leb_le in E. constructor; [now constructor|].
      constructor; [exact E|].
      eapply Forall_impl; [|exact Hy]. unfold descending. intros; lia.
    + apply Nat.leb_gt in E. constructor; [exact IH|].
      apply Forall_forall. intros b Hb.
      apply (Permutation_in _ (insertDesc_perm x l)) in Hb.
      destruct Hb as [<-|Hb]; [unfold descending; lia|].
      rewrite Forall_forall in Hy. now apply Hy.
Qed.

Lemma sortDesc_sorted (l : list A) : StronglySorted (descending key) (sortDesc key l).
Proof.
  induction l as [|x l IH]; simpl; [constructor | now apply insertDesc_sorted].
Qed.



(** The first element of the sorted list is one of largest key. *)
Lemma sortDesc_head (l : list A) :
  l <> [] ->
  exists best rest,
    sortDesc key l = best :: rest /\ In best l
    /\ forall x, In x l -> key x <= key best.
Proof.
  intros Hl. pose proof (sortDesc_sorted l) as Hs.
  destruct (sortDesc key l) as [|best rest] eqn:E.
  - exfalso. apply Hl. apply Permutation_nil.
    rewrite <- E. apply sortDesc_perm.
  - exists best, rest. split; [reflexivity|]. split.
    + apply sortDesc_In. rewrite E. now left.
    + intros x Hx. apply sortDesc_In in Hx. rewrite E in Hx.
      destruct Hx as [<-|Hx]; [lia|].
      inversion Hs as [|? ? _ Hall]; subst.
      rewrite Forall_forall in Hall. now apply Hall.
Qed.
End SortDescendingFacts.

Lemma filter_Selection (A : Type) (P : A -> Prop) (f : A -> bool) (l : list A) :
  (forall x, f x = true <-> P x) -> Selection P l (filter f l).
Proof.
  intros H. induction l as [|x l IH]; simpl; [constructor|].
  destruct (f x) eqn:E.
  - apply Selection_keep; [now apply H | exact IH].
  - apply Selection_drop; [|exact IH]. rewrite <- H. congruence.
Qed.

(** A selection is determined by the list and the property. *)
Lemma Selection_functional (A : Type) (P : A -> Prop) (l a b : list A) :
  Selection P l a -> Selection P l b -> a = b.
Proof.
  intros Ha. revert b.
  induction Ha as [|x l a Hx _ IH|x l a Hx _ IH]; intros b Hb;
    inversion Hb; subst; try contradiction; auto.
  f_equal. now apply IH.
Qed.

Lemma Selection_In (A : Type) (P : A -> Prop) (l l' : list A) :
  Selection P l l' -> forall x, In x l' <-> In x l /\ P x.
Proof.
  induction 1 as [|x l l' Hx _ IH|x l l' Hx _ IH]; intros y; simpl.
  - tauto.
  - rewrite IH. split; [intros [<-|[H1 H2]]; auto | tauto].
  - rewrite IH. split; [tauto | intros [[<-|H1] H2]; tauto].
Qed.

Lemma fieldContains_spec (field criterion : jsstring) :
  fieldContains field criterion = true <-> Contains field criterion.
Proof. apply includes_spec. Qed.

Lemma truthy_false_valueOf (v : option jsstring) :
  truthy v = false <-> valueOf v = [].
Proof. destruct v as [[|c s]|]; simpl; split; congruence. Qed.

Lemma trim_lower_blank (c : jsstring) :
  keepsWhiteSpace toLowerCase -> allSpace c -> trim (toLowerCase c) = [].
Proof. intros Hk H. rewrite (Hk c H). now apply trim_allSpace. Qed.

Lemma fieldContains_blank (field criterion : jsstring) :
  keepsWhiteSpace toLowerCase -> allSpace criterion ->
  fieldContains field criterion = true.
Proof.
  intros Hk H. unfold fieldContains. rewrite (trim_lower_blank _ Hk H).
  apply includes_nil.
Qed.

(** The filter of [searchSculptures] decides [Accepts]. *)
Lemma passesCriteria_spec (params : Params.t) (s : Sculpture) :
  passesCriteria params s = true <-> Accepts params s.
Proof.
  unfold passesCriteria, Accepts, present, lacks.
  rewrite <- !fieldContains_spec.
  destruct (truthy (Params.name params));
    [destruct (fieldContains (name s) (valueOf (Params.name params)))|];
  (destruct (truthy (Params.artist params));
    [destruct (truthy (artist s));
     [destruct (fieldContains (valueOf (artist s)) (valueOf (Params.artist params)))|]|]);
  (destruct (truthy (Params.location params));
    [destruct (truthy (location s));
     [destruct (fieldContains (valueOf (location s)) (valueOf (Params.location params)))|]|]);
  (destruct (truthy (Params.year params));
    [destruct (truthy (year s));
     [destruct (fieldContains (valueOf (year s)) (valueOf (Params.year params)))|]|]);
  simpl; intuition congruence.
Qed.

(** ** The data service *)

Section DataServiceFacts.
Variable readFile : jsstring -> Completion jsstring.
Variable JSON_parse : jsstring -> Completion (option SculptureData).





Lemma searchSculptures_loaded (path : jsstring) (d : SculptureData)
      (params : Params.t) :
  anyPresent params ->
  searchSculptures readFile JSON_parse (loaded path d) params
  = (filter (passesCriteria params) (sculptures d), loaded path d).
Proof.
  unfold anyPresent, present, searchSculptures. simpl. intros H.
  destruct (truthy (Params.name params)), (truthy (Params.artist params)),
           (truthy (Params.location params)), (truthy (Params.year params));
    simpl; try reflexivity.
  intuition discriminate.
Qed.

(** C2. For every criteria object with at least one criterion present,
    [searchSculptures] on a loaded document returns exactly the records,
    in dataset order, such that for each present criterion the record
    lacks the optional field or its lower-cased field contains the
    lower-cased trimmed criterion (the name, which every record has, must
    contain a present name criterion). *)
Theorem searchSculptures_accepts (path : jsstring) (d : SculptureData)
        (params : Params.t) :
  anyPresent params ->
  exists results,
    searchSculptures readFile JSON_parse (loaded path d) params
    = (results, loaded path d)
    /\ Selection (Accepts params) (sculptures d) results.
Proof.
  intros H. eexists. split; [now apply searchSculptures_loaded|].
  apply filter_Selection. intros s. apply passesCriteria_spec.
Qed.

(** The guard of [searchSculptures]. *)
Lemma searchSculptures_guard (self : JsonDataService) (params : Params.t) :
  nonePresent params ->
  fst (searchSculptures readFile JSON_parse self params) = [].
Proof.
  unfold nonePresent, present, searchSculptures.
  intros [H1 [H2 [H3 H4]]].
  destruct (data (loadIfMissing readFile JSON_parse self)); [|reflexivity].
  destruct (truthy (Params.name params)); [congruence|].
  destruct (truthy (Params.artist params)); [congruence|].
  destruct (truthy (Params.location params)); [congruence|].
  destruct (truthy (Params.year params)); [congruence|]. reflexivity.
Qed.

(** C3. Whenever the four criteria are all absent or empty,
    [searchSculptures] returns the empty sequence, whatever document the
    service holds (and when it holds none). *)
Theorem searchSculptures_no_criteria (self : JsonDataService)
        (params : Params.t) :
  nonePresent params ->
  fst (searchSculptures readFile JSON_parse self params) = [].
Proof. apply searchSculptures_guard. Qed.

Lemma loadData_fails (self : JsonDataService) :
  loadFails readFile JSON_parse (dataPath self) ->
  loadData readFile JSON_parse self = (false, self).
Proof.
  unfold loadData. intros [[e ->]|[text [e [-> ->]]]]; reflexivity.
Qed.

(** C6. When the file is absent or does not parse, [loadData] reports
    failure and leaves [data] null, and on such a service every accessor
    returns its not-found value: the empty sequence from
    [findSculptureByName] and [searchSculptures], null from
    [getSculptureByName], [getGalleryInfo] and [getGothicStyleInfo]. *)
Theorem accessors_degrade (self : JsonDataService) (query : jsstring)
        (params : Params.t) :
  data self = None ->
  loadFails readFile JSON_parse (dataPath self) ->
  loadData readFile JSON_parse self = (false, self)
  /\ findSculptureByName readFile JSON_parse self query = ([], self)
  /\ getSculptureByName readFile JSON_parse self query = (None, self)
  /\ searchSculptures readFile JSON_parse self params = ([], self)
  /\ getGalleryInfo readFile JSON_parse self = (None, self)
  /\ getGothicStyleInfo readFile JSON_parse self = (None, self).
Proof.
  intros Hd Hf. pose proof (loadData_fails self Hf) as Hl.
  assert (Hm : loadIfMissing readFile JSON_parse self = self).
  { unfold loadIfMissing. now rewrite Hd, Hl. }
  unfold getSculptureByName, findSculptureByName, searchSculptures,
    getGalleryInfo, getGothicStyleInfo.
  rewrite Hm, Hd. repeat split. exact Hl.
Qed.
End DataServiceFacts.

Lemma filter_none (A : Type) (f : A -> bool) (l : list A) :
  (forall x, In x l -> f x = false) -> filter f l = [].
Proof.
  induction l as [|x l IH]; intros H; simpl; [reflexivity|].
  rewrite (H x (or_introl eq_refl)). apply IH. intros y Hy. apply H. now right.
Qed.

Lemma filter_all (A : Type) (f : A -> bool) (l : list A) :
  (forall x, In x l -> f x = true) -> filter f l = l.
Proof.
  induction l as [|x l IH]; intros H; simpl; [reflexivity|].
  rewrite (H x (or_introl eq_refl)). f_equal. apply IH.
  intros y Hy. apply H. now right.
Qed.

Section BlankInputs.
Variable readFile : jsstring -> Completion jsstring.
Variable JSON_parse : jsstring -> Completion (option SculptureData).

Lemma findSculptureByName_blank (path : jsstring) (d : SculptureData)
      (query : jsstring) :
  keepsWhiteSpace toLowerCase ->
  allSpace query ->
  (forall s, In s (sculptures d) -> normalizeName (name s) <> []) ->
  findSculptureByName readFile JSON_parse (loaded path d) query
  = (sortDesc nameLength (sculptures d), loaded path d).
Proof.
  intros Hk Hq Hn. unfold findSculptureByName. simpl.
  assert (Hs : searchNameOf query = []) by now apply trim_lower_blank.
  assert (H1 : exactMatches d query = []).
  { apply filter_none. intros s Hs'. rewrite Hs.
    destruct (eqb (toLowerCase (name s)) []) eqn:E; [|reflexivity].
    apply eqb_eq in E. exfalso. apply (Hn s Hs').
    now apply normalizeName_nil_of_lower_nil. }
  assert (H2 : normalizedMatches d query = []).
  { apply filter_none. intros s Hs'. rewrite Hs.
    rewrite (normalizeName_blank [] Hk) by constructor.
    destruct (eqb (normalizeName (name s)) []) eqn:E; [|reflexivity].
    apply eqb_eq in E. exfalso. now apply (Hn s Hs'). }
  rewrite H1, H2. simpl. unfold partialMatches. rewrite Hs.
  rewrite filter_all; [reflexivity|]. intros s _. apply includes_nil.
Qed.

(** C8, amended. For an empty or white-space-only query on a loaded
    document none of whose names normalizes to the empty string,
    [findSculptureByName] returns all the records by descending length of
    name, and on a non-empty such document [getSculptureByName] returns a
    record of longest name.  White space has no case: lower-casing leaves
    a string of white space as it is. *)
Theorem findSculptureByName_blank_query (path : jsstring) (d : SculptureData)
        (query : jsstring) :
  keepsWhiteSpace toLowerCase ->
  allSpace query ->
  (forall s, In s (sculptures d) -> normalizeName (name s) <> []) ->
  sculptures d <> [] ->
  findSculptureByName readFile JSON_parse (loaded path d) query
  = (sortDesc nameLength (sculptures d), loaded path d)
  /\ Permutation (sortDesc nameLength (sculptures d)) (sculptures d)
  /\ StronglySorted (descending nameLength) (sortDesc nameLength (sculptures d))
  /\ exists longest,
       getSculptureByName readFile JSON_parse (loaded path d) query
       = (Some longest, loaded path d)
       /\ In longest (sculptures d)
       /\ forall s, In s (sculptures d) -> nameLength s <= nameLength longest.
Proof.
  intros Hk Hq Hn Hd.
  pose proof (findSculptureByName_blank path d _ Hk Hq Hn) as Hf.
  split; [exact Hf|]. split; [apply sortDesc_perm|].
  split; [apply (sortDesc_sorted _ nameLength)|].
  destruct (sortDesc_head _ nameLength _ Hd) as [best [rest [E [Hin Hmax]]]].
  exists best. unfold getSculptureByName. rewrite Hf, E. auto.
Qed.

(** C9. A criterion that is not empty and holds white space only passes
    the guard of [searchSculptures] and rejects no record: when at least
    one criterion is present and every criterion given is white space
    only, the search returns the whole loaded dataset.  White space has no
    case: lower-casing leaves a string of white space as it is. *)
Theorem searchSculptures_blank_criteria (path : jsstring) (d : SculptureData)
        (params : Params.t) :
  keepsWhiteSpace toLowerCase ->
  anyPresent params ->
  blank (Params.name params) -> blank (Params.artist params) ->
  blank (Params.location params) -> blank (Params.year params) ->
  searchSculptures readFile JSON_parse (loaded path d) params
  = (sculptures d, loaded path d).
Proof.
  intros Hk Hp Hn Ha Hl Hy. rewrite searchSculptures_loaded by assumption.
  rewrite filter_all; [reflexivity|]. intros s _.
  unfold passesCriteria.
  rewrite !fieldContains_blank by assumption. simpl.
  now rewrite !andb_false_r.
Qed.

Lemma searchSculptures_In (self : JsonDataService) (params : Params.t)
      (s : Sculpture) :
  In s (fst (searchSculptures readFile JSON_parse self params)) ->
  passesCriteria params s = true.
Proof.
  unfold searchSculptures.
  destruct (data (loadIfMissing readFile JSON_parse self)); [|contradiction].
  match goal with |- context [if ?b then _ else _] => destruct b end;
    [contradiction|].
  simpl. intros H. now apply filter_In in H.
Qed.

Lemma searchSculptures_name (self : JsonDataService) (params : Params.t)
      (s : Sculpture) :
  present (Params.name params) ->
  In s (fst (searchSculptures readFile JSON_parse self params)) ->
  Contains (name s) (valueOf (Params.name params)).
Proof.
  intros Hp Hs. apply searchSculptures_In in Hs.
  apply passesCriteria_spec in Hs. destruct Hs as [H _]. now apply H.
Qed.

(** C10, amended. A present name criterion is never skipped: every record
    that [searchSculptures] returns has a lower-cased name containing the
    lower-cased trimmed name criterion, whatever the other criteria are.
    For the fallback search of the enrichment the criterion is the
    rejoined message, so every record that search returns has a
    lower-cased name containing the rejoined message lower-cased and
    trimmed: the white space at the two ends of the rejoined message is
    not asked of the name. *)
Theorem searchSculptures_name_required (self : JsonDataService) :
  (forall params s,
      present (Params.name params) ->
      In s (fst (searchSculptures readFile JSON_parse self params)) ->
      exists pre post,
        toLowerCase (name s)
        = pre ++ trim (toLowerCase (valueOf (Params.name params))) ++ post)
  /\ (forall userMessage joined s,
      joined = join (lit " ") (splitSpaces (toLowerCase userMessage)) ->
      In s (fst (searchSculptures readFile JSON_parse self
                   (Params.make (Some joined) (Some joined)
                                (Some joined) (Some joined)))) ->
      exists pre post,
        toLowerCase (name s) = pre ++ trim (toLowerCase joined) ++ post).
Proof.
  split.
  - intros params s. apply searchSculptures_name.
  - intros userMessage joined s _ Hs.
    destruct (truthy (Some joined)) eqn:E.
    + exact (searchSculptures_name
               self (Params.make (Some joined) (Some joined) (Some joined) (Some joined))
               s E Hs).
    + exfalso. rewrite searchSculptures_guard in Hs; [contradiction|].
      unfold nonePresent, present. simpl Params.name. simpl Params.artist.
      simpl Params.location. simpl Params.year. rewrite E.
      repeat split; discriminate.
Qed.
End BlankInputs.

(** ** The session *)

Lemma filter_head_unique (A : Type) (f : A -> bool) (l : list A) (r : A) :
  In r l -> f r = true -> (forall s, In s l -> f s = true -> s = r) ->
  exists rest, filter f l = r :: rest.
Proof.
  induction l as [|x l IH]; intros Hin Hr Hu; [contradiction|].
  simpl. destruct (f x) eqn:E.
  - exists (filter f l). f_equal. apply Hu; [now left | exact E].
  - destruct Hin as [->|Hin]; [congruence|].
    apply IH; [exact Hin | exact Hr |].
    intros s Hs. apply Hu. now right.
Qed.

Section SessionFacts.
Variable readFile : jsstring -> Completion jsstring.
Variable JSON_parse : jsstring -> Completion (option SculptureData).
Variable sendItem : Role -> jsstring -> Completion unit.

(** A name of the dataset always finds a record, and finds one of that
    name, case apart, when the name has no white space around it. *)
Lemma getSculptureByName_known (service : JsonDataService) (n : jsstring) :
  In n (map name (get_sculptures service)) ->
  exists sculpture,
    getSculptureByName readFile JSON_parse service n = (Some sculpture, service)
    /\ In sculpture (get_sculptures service)
    /\ (trim (toLowerCase n) = toLowerCase n ->
        toLowerCase (name sculpture) = toLowerCase n).
Proof.
  destruct service as [[d|] path]; simpl; [|contradiction].
  intros Hn. apply in_map_iff in Hn. destruct Hn as [s0 [<- Hs0]].
  unfold getSculptureByName, findSculptureByName. simpl.
  destruct (exactMatches d (name s0)) as [|first rest] eqn:E1; simpl.
  - assert (Hno : trim (toLowerCase (name s0)) <> toLowerCase (name s0)).
    { intros Heq. assert (Hin : In s0 (exactMatches d (name s0))).
      { apply filter_In. split; [exact Hs0|]. apply eqb_eq.
        unfold searchNameOf. now rewrite Heq. }
      now rewrite E1 in Hin. }
    destruct (normalizedMatches d (name s0)) as [|first rest] eqn:E2; simpl.
    + assert (Hin : In s0 (partialMatches d (name s0))).
      { apply sortDesc_In, filter_In. split; [exact Hs0|]. apply includes_trim. }
      destruct (partialMatches d (name s0)) as [|first rest] eqn:E3;
        [contradiction|].
      exists first. split; [reflexivity|]. split; [|tauto].
      assert (Hf : In first (partialMatches d (name s0))) by (rewrite E3; now left).
      apply sortDesc_In, filter_In in Hf. tauto.
    + exists first. split; [reflexivity|]. split; [|tauto].
      assert (Hf : In first (normalizedMatches d (name s0))) by (rewrite E2; now left).
      apply filter_In in Hf. tauto.
  - exists first. split; [reflexivity|].
    assert (Hf : In first (exactMatches d (name s0))) by (rewrite E1; now left).
    apply filter_In in Hf. destruct Hf as [Hf1 Hf2]. split; [exact Hf1|].
    intros Heq. apply eqb_eq in Hf2. unfold searchNameOf in Hf2. congruence.
Qed.

(** The record whose lower-cased name is the lower-cased trimmed query is
    the one found, when there is one such record only. *)
Lemma getSculptureByName_unique (path : jsstring) (d : SculptureData)
      (query : jsstring) (r : Sculpture) :
  In r (sculptures d) ->
  trim (toLowerCase query) = toLowerCase (name r) ->
  (forall s, In s (sculptures d) ->
             toLowerCase (name s) = toLowerCase (name r) -> s = r) ->
  getSculptureByName readFile JSON_parse (loaded path d) query
  = (Some r, loaded path d).
Proof.
  intros Hr Hq Hu.
  unfold getSculptureByName, findSculptureByName. cbn [loadIfMissing loaded data].
  destruct (filter_head_unique _
              (fun sculpture => eqb (toLowerCase (name sculpture)) (searchNameOf query))
              (sculptures d) r Hr) as [rest E].
  - apply eqb_eq. unfold searchNameOf. now rewrite Hq.
  - intros s Hs Hs'. apply Hu; [exact Hs|]. apply eqb_eq in Hs'.
    unfold searchNameOf in Hs'. congruence.
  - unfold exactMatches at 1 2. rewrite E. reflexivity.
Qed.

Lemma session_eta (s : RTSession) (service : JsonDataService) :
  dataService s = Some service -> s = {| dataService := Some service |}.
Proof. destruct s. simpl. now intros ->. Qed.

(** The first branch of the enrichment. *)
Lemma enrich_named_run (service : JsonDataService) (userMessage : jsstring)
      (bestMatch : jsstring) (rest : list jsstring) (sculpture : Sculpture) :
  sortDesc (@List.length N) (potentialNamesOf (get_sculptures service) userMessage)
  = bestMatch :: rest ->
  getSculptureByName readFile JSON_parse service bestMatch
  = (Some sculpture, service) ->
  effectsOf (enrichWithSculptureData readFile JSON_parse sendItem userMessage
                                     {| dataService := Some service |})
  = [DataService_getSculptureByName bestMatch;
     Client_sendItem System (foundText sculpture (formatSculptureInfo [sculpture]))]
    ++ afterSend sendItem System (foundText sculpture (formatSculptureInfo [sculpture])).
Proof.
  intros Hsort Hget.
  unfold enrichWithSculptureData, bind, tryCatch, get_dataService,
    dataService_sculptures, dataService_getSculptureByName, onDataService,
    client_sendItem, ret, emit, effectsOf, afterSend.
  cbn [dataService].
  destruct (potentialNamesOf (get_sculptures service) userMessage) as [|n l] eqn:E.
  { discriminate Hsort. }
  cbn [nonEmpty]. rewrite Hsort. cbn [hd dataService]. rewrite Hget.
  cbn [dataService].
  destruct (sendItem System (foundText sculpture (formatSculptureInfo [sculpture])));
    reflexivity.
Qed.

(** The second branch of the enrichment. *)
Lemma enrich_fallback_run (service : JsonDataService) (userMessage : jsstring) :
  potentialNamesOf (get_sculptures service) userMessage = [] ->
  effectsOf (enrichWithSculptureData readFile JSON_parse sendItem userMessage
                                     {| dataService := Some service |})
  = DataService_searchSculptures (broadParams userMessage)
    :: match fst (searchSculptures readFile JSON_parse service
                                   (broadParams userMessage)) with
       | [] => []
       | _ :: _ =>
         Client_sendItem System
           (relevantText (formatSculptureInfo
              (fst (searchSculptures readFile JSON_parse service
                                     (broadParams userMessage)))))
         :: afterSend sendItem System
              (relevantText (formatSculptureInfo
                 (fst (searchSculptures readFile JSON_parse service
                                        (broadParams userMessage)))))
       end.
Proof.
  intros Hnone.
  unfold enrichWithSculptureData, bind, tryCatch, get_dataService,
    dataService_sculptures, dataService_searchSculptures, onDataService,
    client_sendItem, ret, emit, effectsOf, afterSend.
  cbn [dataService]. rewrite Hnone. cbn [nonEmpty dataService].
  destruct (searchSculptures readFile JSON_parse service (broadParams userMessage))
    as [results service'].
  cbn [fst dataService]. destruct results as [|r results]; [reflexivity|].
  cbn [nonEmpty].
  destruct (sendItem System (relevantText (formatSculptureInfo (r :: results))));
    reflexivity.
Qed.
End SessionFacts.

Section Enrichment.
Variable readFile : jsstring -> Completion jsstring.
Variable JSON_parse : jsstring -> Completion (option SculptureData).
Variable sendItem : Role -> jsstring -> Completion unit.

Lemma sentItems_afterSend (role : Role) (text : jsstring) :
  sentItems (afterSend sendItem role text) = [].
Proof. unfold afterSend. now destruct (sendItem role text). Qed.

Lemma searchCalls_afterSend (role : Role) (text : jsstring) :
  searchCalls (afterSend sendItem role text) = [].
Proof. unfold afterSend. now destruct (sendItem role text). Qed.

Lemma potentialNamesOf_In (l : list Sculpture) (userMessage n : jsstring) :
  In n (potentialNamesOf l userMessage) <->
  In n (map name l)
  /\ includes (toLowerCase userMessage) (toLowerCase n) = true.
Proof. unfold potentialNamesOf. now rewrite filter_In. Qed.

Lemma potentialNamesOf_nil (l : list Sculpture) (userMessage : jsstring) :
  (forall r, In r l ->
             includes (toLowerCase userMessage) (toLowerCase (name r)) = false) ->
  potentialNamesOf l userMessage = [].
Proof.
  intros H. apply filter_none. intros n Hn.
  apply in_map_iff in Hn. destruct Hn as [r [<- Hr]]. now apply H.
Qed.

Lemma infoLine_match (label : string) (v : option jsstring) :
  infoLine label v
  = match v with
    | Some (c :: r) => [lit label ++ c :: r]
    | _ => []
    end.
Proof. now destruct v as [[|c r]|]. Qed.

(** The item the first branch of the enrichment sends, spelled out. *)
Lemma foundText_lines (sculpture : Sculpture) :
  let line := fun (label : string) (v : option jsstring) =>
                match v with
                | Some (c :: r) => [lit label ++ c :: r]
                | _ => []
                end in
  foundText sculpture (formatSculptureInfo [sculpture])
  = lit "I found information about " ++ [34%N] ++ name sculpture ++ [34%N]
    ++ lit " in our collection. Here are the details:" ++ [10%N]
    ++ join [10%N]
         ((lit "Name: " ++ name sculpture)
          :: line "Year: "%string (year sculpture)
          ++ line "Location: "%string (location sculpture)
          ++ line "Artist: "%string (artist sculpture)
          ++ line "Description: "%string (description sculpture)
          ++ line "Cast Information: "%string (cast_information sculpture)
          ++ line "Original Material: "%string (original_material sculpture)
          ++ line "Dimensions: "%string (dimensions sculpture))
    ++ [10%N; 10%N]
    ++ lit "Please provide this information to the user in a friendly, engaging way, focusing on the most relevant aspects to their question.".
Proof.
  intros line. unfold foundText. do 6 f_equal.
  unfold formatSculptureInfo, formatSculpture. cbn [map join].
  now rewrite !infoLine_match.
Qed.

(** The second branch of the enrichment, spelled out. *)
Lemma enrich_fallback_lines (service : JsonDataService) (userMessage : jsstring) :
  potentialNamesOf (get_sculptures service) userMessage = [] ->
  effectsOf (enrichWithSculptureData readFile JSON_parse sendItem userMessage
                                     {| dataService := Some service |})
  = DataService_searchSculptures
      (Params.make (Some (join (lit " ") (splitSpaces (toLowerCase userMessage))))
                   (Some (join (lit " ") (splitSpaces (toLowerCase userMessage))))
                   (Some (join (lit " ") (splitSpaces (toLowerCase userMessage))))
                   (Some (join (lit " ") (splitSpaces (toLowerCase userMessage)))))
    :: match fst (searchSculptures readFile JSON_parse service
                    (Params.make
                       (Some (join (lit " ") (splitSpaces (toLowerCase userMessage))))
                       (Some (join (lit " ") (splitSpaces (toLowerCase userMessage))))
                       (Some (join (lit " ") (splitSpaces (toLowerCase userMessage))))
                       (Some (join (lit " ") (splitSpaces (toLowerCase userMessage))))))
       with
       | [] => []
       | _ :: _ =>
         Client_sendItem System
           (lit "I found some relevant sculptures in our collection that might interest the user:"
            ++ [10%N]
            ++ join [10%N; 10%N]
                 (map formatSculpture
                 (fst (searchSculptures readFile JSON_parse service
                    (Params.make
                       (Some (join (lit " ") (splitSpaces (toLowerCase userMessage))))
                       (Some (join (lit " ") (splitSpaces (toLowerCase userMessage))))
                       (Some (join (lit " ") (splitSpaces (toLowerCase userMessage))))
                       (Some (join (lit " ") (splitSpaces (toLowerCase userMessage))))))))
            ++ [10%N; 10%N]
            ++ lit "Please use this information to provide a helpful, engaging response focused on the most relevant aspects to their question.")
         :: afterSend sendItem System
           (lit "I found some relevant sculptures in our collection that might interest the user:"
            ++ [10%N]
            ++ join [10%N; 10%N]
                 (map formatSculpture
                 (fst (searchSculptures readFile JSON_parse service
                    (Params.make
                       (Some (join (lit " ") (splitSpaces (toLowerCase userMessage))))
                       (Some (join (lit " ") (splitSpaces (toLowerCase userMessage))))
                       (Some (join (lit " ") (splitSpaces (toLowerCase userMessage))))
                       (Some (join (lit " ") (splitSpaces (toLowerCase userMessage))))))))
            ++ [10%N; 10%N]
            ++ lit "Please use this information to provide a helpful, engaging response focused on the most relevant aspects to their question.")
       end.
Proof.
  intros Hnone.
  rewrite (enrich_fallback_run readFile JSON_parse sendItem service userMessage Hnone).
  unfold relevantText, formatSculptureInfo, broadParams, joinedWords. reflexivity.
Qed.

(** On the dataset, for a message in the Latin blocks. *)
Lemma gallery_cases (P : Sculpture -> Prop) :
  P tympanum -> P charles_the_fourth -> P anna_of_schweidnitz -> P votive_relief ->
  forall s, In s (get_sculptures galleryService) -> P s.
Proof.
  intros H1 H2 H3 H4 s [<-|[<-|[<-|[<-|[]]]]]; assumption.
Qed.

Lemma gallery_charles (Hagree : agreesOnLatin toLowerCase) :
  sortDesc (@List.length N)
           (potentialNamesOf (get_sculptures galleryService)
                             (lit "tell me about Charles the fourth"))
  = [name charles_the_fourth]
  /\ getSculptureByName readFile JSON_parse galleryService (name charles_the_fourth)
     = (Some charles_the_fourth, galleryService).
Proof.
  split.
  - unfold potentialNamesOf.
    change (map name (get_sculptures galleryService))
      with [name tympanum; name charles_the_fourth; name anna_of_schweidnitz;
            name votive_relief].
    cbn [filter]. lower_case_known toLowerCase Hagree.
    vm_compute. reflexivity.
  - apply getSculptureByName_unique.
    + right; left; reflexivity.
    + lower_case_known toLowerCase Hagree. vm_compute. reflexivity.
    + apply (gallery_cases
               (fun s => toLowerCase (name s) = toLowerCase (name charles_the_fourth)
                         -> s = charles_the_fourth));
        lower_case_known toLowerCase Hagree; intros H;
        [vm_compute in H; discriminate H | reflexivity
         | vm_compute in H; discriminate H | vm_compute in H; discriminate H].
Qed.

Lemma gallery_weather (Hagree : agreesOnLatin toLowerCase) :
  (forall r, In r (get_sculptures galleryService) ->
             includes (toLowerCase (lit "What is the weather today?"))
                      (toLowerCase (name r)) = false)
  /\ fst (searchSculptures readFile JSON_parse galleryService
                           (broadParams (lit "What is the weather today?")))
     = [].
Proof.
  split.
  - apply (gallery_cases
             (fun r => includes (toLowerCase (lit "What is the weather today?"))
                                (toLowerCase (name r)) = false));
      lower_case_known toLowerCase Hagree; vm_compute; reflexivity.
  - unfold galleryService. rewrite searchSculptures_loaded.
    + cbn [fst]. apply filter_none.
      apply (gallery_cases
               (fun r => passesCriteria (broadParams (lit "What is the weather today?"))
                                        r = false));
        unfold passesCriteria, fieldContains, broadParams, joinedWords;
        cbn [Params.name valueOf]; lower_case_known toLowerCase Hagree;
        vm_compute; reflexivity.
    + left. unfold present, broadParams, joinedWords. cbn [Params.name].
      lower_case_known toLowerCase Hagree. vm_compute. reflexivity.
Qed.

(** C4, amended. When the lower-cased message contains the lower-cased
    name of at least one record, the enrichment takes a longest such name
    and asks [getSculptureByName] for it.  That call always answers with a
    record; it is a record of that name, case apart, when the lower-cased
    name has no white space at its ends.  One system item is then sent
    upstream: the instruction text around the fact sheet of the record
    returned, whose lines are the name and each of the year, the location,
    the artist, the description, the cast information, the original
    material and the dimensions that the record has.  On the dataset, the
    message "tell me about Charles the fourth" gives an item that contains
    "Name: Charles the fourth" and "Year: between 1375 - 1378". *)
Theorem enrich_named_sculpture :
  (forall (service : JsonDataService) (userMessage : jsstring) (s : RTSession),
      let line := fun (label : string) (v : option jsstring) =>
                    match v with
                    | Some (c :: r) => [lit label ++ c :: r]
                    | _ => []
                    end in
      dataService s = Some service ->
      (exists r, In r (get_sculptures service)
                 /\ includes (toLowerCase userMessage) (toLowerCase (name r)) = true) ->
      exists bestMatch sculpture factSheet text,
        In bestMatch (map name (get_sculptures service))
        /\ includes (toLowerCase userMessage) (toLowerCase bestMatch) = true
        /\ (forall r, In r (get_sculptures service) ->
                      includes (toLowerCase userMessage) (toLowerCase (name r)) = true ->
                      List.length (name r) <= List.length bestMatch)
        /\ getSculptureByName readFile JSON_parse service bestMatch
           = (Some sculpture, service)
        /\ In sculpture (get_sculptures service)
        /\ (trim (toLowerCase bestMatch) = toLowerCase bestMatch ->
            toLowerCase (name sculpture) = toLowerCase bestMatch)
        /\ factSheet
           = join [10%N]
               ((lit "Name: " ++ name sculpture)
                :: line "Year: "%string (year sculpture)
                ++ line "Location: "%string (location sculpture)
                ++ line "Artist: "%string (artist sculpture)
                ++ line "Description: "%string (description sculpture)
                ++ line "Cast Information: "%string (cast_information sculpture)
                ++ line "Original Material: "%string (original_material sculpture)
                ++ line "Dimensions: "%string (dimensions sculpture))
        /\ text
           = lit "I found information about " ++ [34%N] ++ name sculpture ++ [34%N]
             ++ lit " in our collection. Here are the details:" ++ [10%N]
             ++ factSheet ++ [10%N; 10%N]
             ++ lit "Please provide this information to the user in a friendly, engaging way, focusing on the most relevant aspects to their question."
        /\ effectsOf (enrichWithSculptureData readFile JSON_parse sendItem
                                              userMessage s)
           = [DataService_getSculptureByName bestMatch; Client_sendItem System text]
             ++ afterSend sendItem System text
        /\ sentItems (effectsOf (enrichWithSculptureData readFile JSON_parse sendItem
                                                         userMessage s))
           = [(System, text)])
  /\ (agreesOnLatin toLowerCase ->
      exists text,
        sentItems (effectsOf (enrichWithSculptureData
                                readFile JSON_parse sendItem
                                (lit "tell me about Charles the fourth")
                                gallerySession))
        = [(System, text)]
        /\ includes text (lit "Name: Charles the fourth") = true
        /\ includes text (lit "Year: between 1375 - 1378") = true).
Proof.
  split.
  - intros service userMessage s line Hs [r [Hr Hinc]].
    rewrite (session_eta s service Hs).
    assert (Hne : potentialNamesOf (get_sculptures service) userMessage <> []).
    { intros E. assert (Hin : In (name r)
                                 (potentialNamesOf (get_sculptures service) userMessage)).
      { apply potentialNamesOf_In. split; [now apply in_map | exact Hinc]. }
      now rewrite E in Hin. }
    destruct (sortDesc_head _ (@List.length N) _ Hne) as [best [rest [E [Hin Hmax]]]].
    apply potentialNamesOf_In in Hin. destruct Hin as [Hin1 Hin2].
    destruct (getSculptureByName_known readFile JSON_parse service best Hin1)
      as [sculpture [Hget [Hmem Hsame]]].
    pose proof (enrich_named_run readFile JSON_parse sendItem service
                                 userMessage _ _ _ E Hget) as Hrun.
    rewrite foundText_lines in Hrun.
    exists best, sculpture. eexists. eexists.
    split; [exact Hin1|]. split; [exact Hin2|].
    split.
    { intros r' Hr' Hinc'. apply Hmax. apply potentialNamesOf_In.
      split; [now apply in_map | exact Hinc']. }
    split; [exact Hget|]. split; [exact Hmem|]. split; [exact Hsame|].
    split; [reflexivity|]. split; [reflexivity|].
    split; [exact Hrun|].
    rewrite Hrun. cbn [sentItems flat_map app].
    now rewrite sentItems_afterSend.
  - intros Hagree. destruct (gallery_charles Hagree) as [E Hget].
    eexists. split; [|split].
    + unfold gallerySession.
      rewrite (enrich_named_run readFile JSON_parse sendItem galleryService
                 (lit "tell me about Charles the fourth")
                 (name charles_the_fourth) [] charles_the_fourth E Hget).
      cbn [sentItems flat_map app]. rewrite sentItems_afterSend. reflexivity.
    + vm_compute. reflexivity.
    + vm_compute. reflexivity.
Qed.

(** C5. When the lower-cased message contains the lower-cased name of no
    record, the enrichment makes one call of [searchSculptures], with the
    lower-cased pieces of the message between white space, joined by single
    spaces, as the name, the artist, the location and the year criterion at
    once; it sends upstream the fact sheets of the records found, joined
    by blank lines inside its instruction text, and nothing when none is
    found.  On the dataset, "What is the weather
    today?" sends nothing. *)
Theorem enrich_fallback_search :
  (forall (service : JsonDataService) (userMessage : jsstring) (s : RTSession),
      dataService s = Some service ->
      (forall r, In r (get_sculptures service) ->
                 includes (toLowerCase userMessage) (toLowerCase (name r)) = false) ->
      exists joined criteria results text,
        joined = join (lit " ") (splitSpaces (toLowerCase userMessage))
        /\ criteria = Params.make (Some joined) (Some joined) (Some joined) (Some joined)
        /\ results = fst (searchSculptures readFile JSON_parse service criteria)
        /\ text
           = lit "I found some relevant sculptures in our collection that might interest the user:"
             ++ [10%N] ++ join [10%N; 10%N] (map formatSculpture results)
             ++ [10%N; 10%N]
             ++ lit "Please use this information to provide a helpful, engaging response focused on the most relevant aspects to their question."
        /\ effectsOf (enrichWithSculptureData readFile JSON_parse sendItem
                                              userMessage s)
           = DataService_searchSculptures criteria
             :: match results with
                | [] => []
                | _ :: _ =>
                  Client_sendItem System text :: afterSend sendItem System text
                end
        /\ searchCalls (effectsOf (enrichWithSculptureData readFile JSON_parse sendItem
                                                           userMessage s))
           = [criteria]
        /\ (results = [] ->
            sentItems (effectsOf (enrichWithSculptureData readFile JSON_parse sendItem
                                                          userMessage s))
            = []))
  /\ (agreesOnLatin toLowerCase ->
      (forall r, In r (get_sculptures galleryService) ->
                 includes (toLowerCase (lit "What is the weather today?"))
                          (toLowerCase (name r)) = false)
      /\ sentItems (effectsOf (enrichWithSculptureData
                                 readFile JSON_parse sendItem
                                 (lit "What is the weather today?")
                                 gallerySession))
         = []).
Proof.
  assert (Hgen : forall service userMessage,
             potentialNamesOf (get_sculptures service) userMessage = [] ->
             let results := fst (searchSculptures readFile JSON_parse service
                                                  (broadParams userMessage)) in
             searchCalls (effectsOf (enrichWithSculptureData
                                       readFile JSON_parse sendItem userMessage
                                       {| dataService := Some service |}))
             = [broadParams userMessage]
             /\ (results = [] ->
                 sentItems (effectsOf (enrichWithSculptureData
                                         readFile JSON_parse sendItem userMessage
                                         {| dataService := Some service |}))
                 = [])).
  { intros service userMessage Hnone results.
    rewrite (enrich_fallback_run readFile JSON_parse sendItem service
                                 userMessage Hnone).
    fold results. split.
    - destruct results as [|r l]; [reflexivity|].
      cbn [searchCalls flat_map app]. fold (searchCalls (afterSend sendItem System
        (relevantText (formatSculptureInfo (r :: l))))).
      now rewrite searchCalls_afterSend.
    - now intros ->. }
  split.
  - intros service userMessage s Hs Hno.
    rewrite (session_eta s service Hs).
    pose proof (potentialNamesOf_nil _ _ Hno) as Hnone.
    destruct (Hgen service userMessage Hnone) as [H1 H2].
    eexists _, _, _, _. split; [reflexivity|]. split; [reflexivity|].
    split; [reflexivity|]. split; [reflexivity|].
    split; [exact (enrich_fallback_lines service userMessage Hnone)|].
    split; [exact H1 | exact H2].
  - intros Hagree. destruct (gallery_weather Hagree) as [Hno Hres].
    split; [exact Hno|].
    apply Hgen; [now apply potentialNamesOf_nil | exact Hres].
Qed.

(** C7. For an [input_audio] event whose completion is signalled,
    [handleInputAudio] sends [speech_started] to the client socket, then
    waits for the completion, then sends one [transcription] message with
    the id of the event and its transcription, the empty string when there
    is none; nothing else goes to the socket. *)
Theorem handleInputAudio_completed (event : RTInputAudioItem) (s : RTSession) :
  completion event = Returns tt ->
  exists text,
    text = match transcription event with
           | Some transcribed => transcribed
           | None => lit ""
           end
    /\ handleInputAudio event s
       = (([Ws_send SpeechStarted;
            Event_waitForCompletion (id event);
            Ws_send (Transcription (id event) text);
            Logger_debug (lit "Input audio processed successfully")], s),
          Returns tt)
    /\ sentFrames (effectsOf (handleInputAudio event s))
       = [SpeechStarted; Transcription (id event) text].
Proof.
  intros Hc. eexists. split; [reflexivity|].
  assert (Hrun : handleInputAudio event s
                 = (([Ws_send SpeechStarted;
                      Event_waitForCompletion (id event);
                      Ws_send (Transcription (id event)
                                 match transcription event with
                                 | Some transcribed => transcribed
                                 | None => lit ""
                                 end);
                      Logger_debug (lit "Input audio processed successfully")], s),
                    Returns tt)).
  { unfold handleInputAudio, tryCatch, bind, emit, waitForCompletion.
    rewrite Hc. cbn [app].
    destruct (transcription event) as [[|c t]|]; reflexivity. }
  split; [exact Hrun | now rewrite Hrun].
Qed.

(** When the completion fails instead, the error is logged and thrown
    again, and no transcription is sent. *)
Lemma handleInputAudio_failed (event : RTInputAudioItem) (s : RTSession)
      (e : jsstring) :
  completion event = Throws e ->
  handleInputAudio event s
  = (([Ws_send SpeechStarted;
       Event_waitForCompletion (id event);
       Logger_error (lit "Error handling input audio")], s),
     Throws e).
Proof.
  intros Hc. unfold handleInputAudio, tryCatch, bind, emit, waitForCompletion, throw.
  now rewrite Hc.
Qed.
End Enrichment.

(** * Further properties of the data service *)

(** The search name of a query padded with white space and spelled in
    another case. *)
Lemma searchNameOf_respelled (w1 q' w2 q : jsstring) :
  commutesWithTrim toLowerCase ->
  allSpace w1 -> allSpace w2 -> toLowerCase q' = toLowerCase q ->
  searchNameOf (w1 ++ q' ++ w2) = searchNameOf q.
Proof.
  intros Ht H1 H2 Hq. unfold searchNameOf.
  rewrite <- (Ht (w1 ++ q' ++ w2)).
  rewrite trim_app_space_l, trim_app_space_r by assumption.
  now rewrite Ht, Hq.
Qed.

Lemma tiers_same_searchName (d : SculptureData) (q q' : jsstring) :
  searchNameOf q' = searchNameOf q ->
  exactMatches d q' = exactMatches d q
  /\ normalizedMatches d q' = normalizedMatches d q
  /\ partialMatches d q' = partialMatches d q.
Proof.
  intros H. unfold exactMatches, normalizedMatches, partialMatches.
  now rewrite H.
Qed.

Lemma In_trim (s : jsstring) (x : N) : In x (trim s) -> In x s.
Proof.
  destruct (trim_split s) as [w1 [w2 [_ [_ H]]]]. intros Hx.
  rewrite H. apply in_or_app. right. apply in_or_app. now left.
Qed.

(** X1. A normalized name holds word characters and spaces only: whatever
    [toLowerCase] gives, no other character, and no white space other than
    the space, is left in it. *)
Theorem normalizeName_alphabet (n : jsstring) (x : N) :
  In x (normalizeName n) -> isWord x = true \/ x = 32%N.
Proof.
  unfold normalizeName. intros H. apply In_trim in H.
  apply In_collapseFrom in H. destruct H as [->|[H Hx]]; [now right|].
  apply filter_In in H. destruct H as [_ H]. rewrite Hx, orb_false_r in H.
  now left.
Qed.

Section DataServiceMore.
Variable readFile : jsstring -> Completion jsstring.
Variable JSON_parse : jsstring -> Completion (option SculptureData).

Lemma loadIfMissing_loads (self : JsonDataService) (text : jsstring)
      (d : SculptureData) :
  data self = None ->
  readFile (dataPath self) = Returns text ->
  JSON_parse text = Returns (Some d) ->
  loadIfMissing readFile JSON_parse self = loaded (dataPath self) d.
Proof.
  intros Hd Hr Hp. unfold loadIfMissing, loadData. now rewrite Hd, Hr, Hp.
Qed.

(** X2. Lazy loading: on a service that holds no document yet, when the file
    reads and parses to a document, every accessor answers as the loaded
    service does and leaves the service loaded. *)
Theorem accessors_load_lazily (self : JsonDataService) (text : jsstring)
        (d : SculptureData) (query : jsstring) (params : Params.t) :
  data self = None ->
  readFile (dataPath self) = Returns text ->
  JSON_parse text = Returns (Some d) ->
  loadData readFile JSON_parse self = (true, loaded (dataPath self) d)
  /\ findSculptureByName readFile JSON_parse self query
     = findSculptureByName readFile JSON_parse (loaded (dataPath self) d) query
  /\ snd (findSculptureByName readFile JSON_parse self query)
     = loaded (dataPath self) d
  /\ getSculptureByName readFile JSON_parse self query
     = getSculptureByName readFile JSON_parse (loaded (dataPath self) d) query
  /\ searchSculptures readFile JSON_parse self params
     = searchSculptures readFile JSON_parse (loaded (dataPath self) d) params
  /\ snd (searchSculptures readFile JSON_parse self params)
     = loaded (dataPath self) d
  /\ getGalleryInfo readFile JSON_parse self
     = (Some (gallery_collection (general_information d)), loaded (dataPath self) d)
  /\ getGothicStyleInfo readFile JSON_parse self
     = (Some (gothic_style (general_information d)), loaded (dataPath self) d).
Proof.
  intros Hd Hr Hp.
  pose proof (loadIfMissing_loads self text d Hd Hr Hp) as Hl.
  split; [unfold loadData; now rewrite Hr, Hp|].
  unfold getSculptureByName, findSculptureByName, searchSculptures,
    getGalleryInfo, getGothicStyleInfo.
  rewrite Hl. cbn [loadIfMissing loaded data].
  repeat split.
  - destruct (nonEmpty (exactMatches d query)); [reflexivity|].
    destruct (nonEmpty (normalizedMatches d query)); reflexivity.
  - match goal with |- context [if ?b then _ else _] => destruct b end;
      reflexivity.
Qed.

(** X3. The file may hold the JSON value [null]: then [loadData] reports
    success, yet the service still holds no document and every accessor
    answers not-found. *)
Theorem null_document (self : JsonDataService) (text query : jsstring)
        (params : Params.t) :
  data self = None ->
  readFile (dataPath self) = Returns text ->
  JSON_parse text = Returns None ->
  loadData readFile JSON_parse self = (true, self)
  /\ findSculptureByName readFile JSON_parse self query = ([], self)
  /\ getSculptureByName readFile JSON_parse self query = (None, self)
  /\ searchSculptures readFile JSON_parse self params = ([], self)
  /\ getGalleryInfo readFile JSON_parse self = (None, self)
  /\ getGothicStyleInfo readFile JSON_parse self = (None, self).
Proof.
  intros Hd Hr Hp.
  assert (Hl : loadData readFile JSON_parse self = (true, self)).
  { unfold loadData. rewrite Hr, Hp. destruct self as [dt path].
    simpl in Hd. now subst dt. }
  assert (Hm : loadIfMissing readFile JSON_parse self = self).
  { unfold loadIfMissing. now rewrite Hd, Hl. }
  unfold getSculptureByName, findSculptureByName, searchSculptures,
    getGalleryInfo, getGothicStyleInfo.
  rewrite Hm, Hd. repeat split. exact Hl.
Qed.

Lemma findSculptureByName_same_searchName (self : JsonDataService)
      (q q' : jsstring) :
  searchNameOf q' = searchNameOf q ->
  findSculptureByName readFile JSON_parse self q'
  = findSculptureByName readFile JSON_parse self q.
Proof.
  intros H. unfold findSculptureByName.
  destruct (data (loadIfMissing readFile JSON_parse self)) as [d|]; [|reflexivity].
  destruct (tiers_same_searchName d q q' H) as [-> [-> ->]]. reflexivity.
Qed.

(** X4. The case of a query and the white space around it do not matter to
    [findSculptureByName] and [getSculptureByName], lower-casing and
    trimming being done in either order with the same result. *)
Theorem findSculptureByName_case_and_padding (self : JsonDataService)
        (w1 q' w2 q : jsstring) :
  commutesWithTrim toLowerCase ->
  allSpace w1 -> allSpace w2 -> toLowerCase q' = toLowerCase q ->
  findSculptureByName readFile JSON_parse self (w1 ++ q' ++ w2)
  = findSculptureByName readFile JSON_parse self q
  /\ getSculptureByName readFile JSON_parse self (w1 ++ q' ++ w2)
     = getSculptureByName readFile JSON_parse self q.
Proof.
  intros Ht H1 H2 Hq.
  assert (H : findSculptureByName readFile JSON_parse self (w1 ++ q' ++ w2)
              = findSculptureByName readFile JSON_parse self q).
  { apply findSculptureByName_same_searchName.
    now apply searchNameOf_respelled. }
  split; [exact H|]. unfold getSculptureByName. now rewrite H.
Qed.

Lemma passesCriteria_same (p p' : Params.t) (s : Sculpture) :
  sameCriterion (Params.name p') (Params.name p) ->
  sameCriterion (Params.artist p') (Params.artist p) ->
  sameCriterion (Params.location p') (Params.location p) ->
  sameCriterion (Params.year p') (Params.year p) ->
  passesCriteria p' s = passesCriteria p s.
Proof.
  intros [Hn1 Hn2] [Ha1 Ha2] [Hl1 Hl2] [Hy1 Hy2].
  unfold passesCriteria, fieldContains.
  now rewrite Hn1, Hn2, Ha1, Ha2, Hl1, Hl2, Hy1, Hy2.
Qed.

(** X5. [searchSculptures] sees a criterion only through whether it is
    present and through its lower-cased trimmed text: two criteria objects
    that agree on these give the same result. *)
Theorem searchSculptures_case_and_padding (self : JsonDataService)
        (p p' : Params.t) :
  sameCriterion (Params.name p') (Params.name p) ->
  sameCriterion (Params.artist p') (Params.artist p) ->
  sameCriterion (Params.location p') (Params.location p) ->
  sameCriterion (Params.year p') (Params.year p) ->
  searchSculptures readFile JSON_parse self p'
  = searchSculptures readFile JSON_parse self p.
Proof.
  intros Hn Ha Hl Hy. unfold searchSculptures.
  destruct (data (loadIfMissing readFile JSON_parse self)) as [d|]; [|reflexivity].
  destruct Hn as [Hn1 Hn2], Ha as [Ha1 Ha2], Hl as [Hl1 Hl2], Hy as [Hy1 Hy2].
  rewrite Hn1, Ha1, Hl1, Hy1.
  match goal with |- context [if ?b then _ else _] => destruct b end;
    [reflexivity|].
  f_equal. apply filter_ext. intros s.
  apply passesCriteria_same; now split.
Qed.
End DataServiceMore.

Lemma sameCriterion_refl (v : option jsstring) : sameCriterion v v.
Proof. now split. Qed.

Section DataServiceLookup.
Variable readFile : jsstring -> Completion jsstring.
Variable JSON_parse : jsstring -> Completion (option SculptureData).

Lemma exactMatches_partial (d : SculptureData) (query : jsstring) (s : Sculpture) :
  In s (exactMatches d query) -> In s (partialMatches d query).
Proof.
  intros H. apply filter_In in H. destruct H as [H1 H2].
  apply sortDesc_In, filter_In. split; [exact H1|].
  apply eqb_eq in H2. rewrite H2. apply includes_refl.
Qed.

Lemma nil_no_In (A : Type) (l : list A) : (forall x, ~ In x l) -> l = [].
Proof.
  destruct l as [|x l]; [reflexivity|]. intros H.
  exfalso. apply (H x). now left.
Qed.

(** X6. [getSculptureByName] answers null on a loaded document exactly when
    no record has a lower-cased name that contains the lower-cased trimmed
    query and no record has the normalized name of the lower-cased trimmed
    query. *)
Theorem getSculptureByName_not_found (path : jsstring) (d : SculptureData)
        (query : jsstring) :
  fst (getSculptureByName readFile JSON_parse (loaded path d) query) = None
  <-> forall s, In s (sculptures d) ->
                ~ Contains (name s) query
                /\ normalizeName (name s) <> normalizeName (trim (toLowerCase query)).
Proof.
  unfold getSculptureByName, findSculptureByName. cbn [loadIfMissing loaded data].
  split.
  - intros H s Hs.
    destruct (exactMatches d query) as [|e1 l1] eqn:E1; [|discriminate H].
    destruct (normalizedMatches d query) as [|e2 l2] eqn:E2; [|discriminate H].
    cbn [nonEmpty fst] in H.
    destruct (partialMatches d query) as [|e3 l3] eqn:E3; [|discriminate H].
    split.
    + intros Hc. assert (Hin : In s (partialMatches d query)).
      { apply sortDesc_In, filter_In. split; [exact Hs|].
        now apply includes_spec. }
      now rewrite E3 in Hin.
    + intros Hn. assert (Hin : In s (normalizedMatches d query)).
      { apply filter_In. split; [exact Hs|]. now apply eqb_eq. }
      now rewrite E2 in Hin.
  - intros H.
    assert (H3 : partialMatches d query = []).
    { apply nil_no_In. intros s Hs. apply sortDesc_In, filter_In in Hs.
      destruct Hs as [Hs1 Hs2]. apply includes_spec in Hs2.
      destruct (H s Hs1) as [Hc _]. now apply Hc. }
    assert (H1 : exactMatches d query = []).
    { apply nil_no_In. intros s Hs. apply exactMatches_partial in Hs.
      now rewrite H3 in Hs. }
    assert (H2 : normalizedMatches d query = []).
    { apply nil_no_In. intros s Hs. apply filter_In in Hs.
      destruct Hs as [Hs1 Hs2]. apply eqb_eq in Hs2.
      destruct (H s Hs1) as [_ Hn]. now apply Hn. }
    now rewrite H1, H2, H3.
Qed.

(** X7. Looking a record up by its own name finds it: when the lower-cased
    trimmed query is the lower-cased name of a record of the loaded
    document, and of no other record, [getSculptureByName] returns that
    record. *)
Theorem getSculptureByName_own_name (path : jsstring) (d : SculptureData)
        (query : jsstring) (r : Sculpture) :
  In r (sculptures d) ->
  trim (toLowerCase query) = toLowerCase (name r) ->
  (forall s, In s (sculptures d) ->
             toLowerCase (name s) = toLowerCase (name r) -> s = r) ->
  getSculptureByName readFile JSON_parse (loaded path d) query
  = (Some r, loaded path d).
Proof. apply getSculptureByName_unique. Qed.

(** X8. When the query is not empty and matches no record exactly or after
    normalization, [findSculptureByName] returns what [searchSculptures]
    returns for the query as its only criterion, the name, sorted by
    descending length of name. *)
Theorem findSculptureByName_sorts_name_search (path : jsstring)
        (d : SculptureData) (query : jsstring) :
  query <> [] ->
  (forall s, In s (sculptures d) ->
             toLowerCase (name s) <> trim (toLowerCase query)
             /\ normalizeName (name s) <> normalizeName (trim (toLowerCase query))) ->
  fst (findSculptureByName readFile JSON_parse (loaded path d) query)
  = sortDesc nameLength
      (fst (searchSculptures readFile JSON_parse (loaded path d)
                             (Params.make (Some query) None None None))).
Proof.
  intros Hq Hno.
  assert (H1 : exactMatches d query = []).
  { apply filter_none. intros s Hs.
    destruct (eqb (toLowerCase (name s)) (searchNameOf query)) eqn:E;
      [|reflexivity].
    apply eqb_eq in E. destruct (Hno s Hs) as [Hx _]. now apply Hx in E. }
  assert (H2 : normalizedMatches d query = []).
  { apply filter_none. intros s Hs.
    destruct (eqb (normalizeName (name s)) (normalizeName (searchNameOf query)))
      eqn:E; [|reflexivity].
    apply eqb_eq in E.
    destruct (Hno s Hs) as [_ Hx]. now apply Hx in E. }
  unfold findSculptureByName, searchSculptures.
  cbn [loadIfMissing loaded data]. rewrite H1, H2. cbn [nonEmpty fst].
  destruct query as [|c query]; [congruence|].
  cbn [Params.name Params.artist Params.location Params.year truthy negb andb fst].
  unfold partialMatches. f_equal. apply filter_ext. intros s.
  unfold passesCriteria, fieldContains, searchNameOf.
  cbn [Params.name Params.artist Params.location Params.year truthy valueOf andb].
  now destruct (includes (toLowerCase (name s)) (trim (toLowerCase (c :: query)))).
Qed.



(** X10. Neither search invents a record: whatever [findSculptureByName] and
    [searchSculptures] return is in the document the service holds after
    the call. *)
Theorem results_from_document (self : JsonDataService) (query : jsstring)
        (params : Params.t) :
  incl (fst (findSculptureByName readFile JSON_parse self query))
       (get_sculptures (snd (findSculptureByName readFile JSON_parse self query)))
  /\ incl (fst (searchSculptures readFile JSON_parse self params))
          (get_sculptures (snd (searchSculptures readFile JSON_parse self params))).
Proof.
  unfold incl, findSculptureByName, searchSculptures, get_sculptures.
  destruct (data (loadIfMissing readFile JSON_parse self)) as [d|] eqn:E;
    [|split; intros s []].
  split; intros s.
  - destruct (exactMatches d query) as [|e1 l1] eqn:E1.
    + destruct (normalizedMatches d query) as [|e2 l2] eqn:E2;
        cbn [nonEmpty fst snd]; rewrite E; intros H.
      * apply sortDesc_In, filter_In in H. tauto.
      * rewrite <- E2 in H. apply filter_In in H. tauto.
    + cbn [nonEmpty fst snd]. rewrite E. intros H.
      rewrite <- E1 in H. apply filter_In in H. tauto.
  - match goal with |- context [if ?b then _ else _] => destruct b end;
      cbn [fst snd]; rewrite E; [intros []|].
    intros H. apply filter_In in H. tauto.
Qed.

(** X11. Once a document is loaded the file is not consulted again: on a
    loaded service every accessor answers the same on every host, and
    leaves the service as it is. *)
Theorem loaded_service_ignores_host
        (readFile' : jsstring -> Completion jsstring)
        (JSON_parse' : jsstring -> Completion (option SculptureData))
        (path : jsstring) (d : SculptureData) (query : jsstring)
        (params : Params.t) :
  findSculptureByName readFile JSON_parse (loaded path d) query
  = findSculptureByName readFile' JSON_parse' (loaded path d) query
  /\ snd (findSculptureByName readFile JSON_parse (loaded path d) query)
     = loaded path d
  /\ getSculptureByName readFile JSON_parse (loaded path d) query
     = getSculptureByName readFile' JSON_parse' (loaded path d) query
  /\ searchSculptures readFile JSON_parse (loaded path d) params
     = searchSculptures readFile' JSON_parse' (loaded path d) params
  /\ snd (searchSculptures readFile JSON_parse (loaded path d) params)
     = loaded path d
  /\ getGalleryInfo readFile JSON_parse (loaded path d)
     = getGalleryInfo readFile' JSON_parse' (loaded path d)
  /\ getGothicStyleInfo readFile JSON_parse (loaded path d)
     = getGothicStyleInfo readFile' JSON_parse' (loaded path d).
Proof.
  unfold getSculptureByName, findSculptureByName, searchSculptures,
    getGalleryInfo, getGothicStyleInfo.
  cbn [loadIfMissing loaded data]. repeat split.
  - destruct (nonEmpty (exactMatches d query)); [reflexivity|].
    destruct (nonEmpty (normalizedMatches d query)); reflexivity.
  - match goal with |- context [if ?b then _ else _] => destruct b end;
      reflexivity.
Qed.
End DataServiceLookup.

(** * Further properties of the session *)


Lemma collapseFrom_false_not_nil (s : jsstring) :
  s <> [] -> collapseFrom false s <> [].
Proof.
  destruct s as [|c s]; [congruence|]. intros _. simpl.
  destruct (isSpace c); discriminate.
Qed.

(** X12. Splitting on white space and joining with single spaces replaces
    every run of white space by one space; a run at either end of the string
    becomes a space too and is not removed, so only the empty string gives
    the empty string. *)
Theorem split_join_collapses (s : jsstring) :
  join (lit " ") (splitSpaces s) = collapseSpaces s
  /\ (join (lit " ") (splitSpaces s) = [] <-> s = []).
Proof.
  assert (H : join (lit " ") (splitSpaces s) = collapseSpaces s).
  { unfold splitSpaces, collapseSpaces. change (lit " ") with [32%N].
    rewrite join_splitFrom; [reflexivity | discriminate]. }
  split; [exact H|]. rewrite H. split.
  - intros Hc. destruct s as [|c s]; [reflexivity|].
    exfalso. revert Hc. now apply collapseFrom_false_not_nil.
  - now intros ->.
Qed.

Section EnrichmentMore.
Variable readFile : jsstring -> Completion jsstring.
Variable JSON_parse : jsstring -> Completion (option SculptureData).
Variable sendItem : Role -> jsstring -> Completion unit.

Lemma loadIfMissing_idem (self : JsonDataService) :
  loadIfMissing readFile JSON_parse (loadIfMissing readFile JSON_parse self)
  = loadIfMissing readFile JSON_parse self.
Proof.
  unfold loadIfMissing at 2. destruct (data self) as [d|] eqn:E.
  - unfold loadIfMissing. now rewrite E.
  - unfold loadIfMissing, loadData. cbn [snd].
    destruct (readFile (dataPath self)) as [text|e] eqn:Er; cbn [snd].
    + destruct (JSON_parse text) as [[d|]|e] eqn:Ep; cbn [snd data dataPath];
        rewrite ?E, ?Er; cbn [snd]; rewrite ?Ep; try reflexivity.
    + now rewrite E, Er.
Qed.

Lemma getSculptureByName_snd (self : JsonDataService) (query : jsstring) :
  snd (getSculptureByName readFile JSON_parse self query)
  = loadIfMissing readFile JSON_parse self.
Proof.
  unfold getSculptureByName, findSculptureByName.
  destruct (data (loadIfMissing readFile JSON_parse self)); [|reflexivity].
  destruct (nonEmpty (exactMatches s query)); [reflexivity|].
  destruct (nonEmpty (normalizedMatches s query)); reflexivity.
Qed.

Lemma searchSculptures_snd (self : JsonDataService) (params : Params.t) :
  snd (searchSculptures readFile JSON_parse self params)
  = loadIfMissing readFile JSON_parse self.
Proof.
  unfold searchSculptures.
  destruct (data (loadIfMissing readFile JSON_parse self)); [|reflexivity].
  match goal with |- context [if ?b then _ else _] => destruct b end;
    reflexivity.
Qed.

(** Every run of the enrichment. *)
Lemma enrich_run (userMessage : jsstring) (s : RTSession) :
  exists t,
    enrichWithSculptureData readFile JSON_parse sendItem userMessage s
    = ((t, match dataService s with
           | Some service =>
             {| dataService := Some (loadIfMissing readFile JSON_parse service) |}
           | None => s
           end), Returns tt)
    /\ List.length (sentItems t) <= 1
    /\ Forall (fun item => fst item = System) (sentItems t).
Proof.
  destruct s as [[service|]].
  2:{ exists []. repeat split; [simpl; lia | constructor]. }
  unfold enrichWithSculptureData, bind, tryCatch, get_dataService,
    dataService_sculptures, dataService_getSculptureByName,
    dataService_searchSculptures, onDataService, client_sendItem, ret, emit.
  cbn [dataService].
  pose proof (searchSculptures_snd service (broadParams userMessage)) as Hs.
  destruct (potentialNamesOf (get_sculptures service) userMessage) as [|n l] eqn:E.
  - cbn [nonEmpty dataService].
    destruct (searchSculptures readFile JSON_parse service (broadParams userMessage))
      as [results service'].
    cbn [snd] in Hs. subst service'. cbn [dataService].
    destruct results as [|r results]; cbn [nonEmpty].
    + eexists. split; [reflexivity|]. split; [simpl; lia | constructor].
    + destruct (sendItem System (relevantText (formatSculptureInfo (r :: results))))
        as [[]|e];
        (eexists; split; [reflexivity|]; split; [simpl; lia | repeat constructor]).
  - cbn [nonEmpty dataService].
    pose proof (getSculptureByName_snd service
                  (hd [] (sortDesc (@List.length N) (n :: l)))) as Hg.
    destruct (getSculptureByName readFile JSON_parse service
                (hd [] (sortDesc (@List.length N) (n :: l))))
      as [[sculpture|] service'].
    + cbn [snd] in Hg. subst service'. cbn [dataService].
      destruct (sendItem System (foundText sculpture (formatSculptureInfo [sculpture])))
        as [[]|e];
        (eexists; split; [reflexivity|]; split; [simpl; lia | repeat constructor]).
    + cbn [snd] in Hg. subst service'. cbn [dataService].
      pose proof (searchSculptures_snd (loadIfMissing readFile JSON_parse service)
                    (broadParams userMessage)) as Hs'.
      rewrite loadIfMissing_idem in Hs'.
      destruct (searchSculptures readFile JSON_parse
                  (loadIfMissing readFile JSON_parse service)
                  (broadParams userMessage)) as [results service'].
      cbn [snd] in Hs'. subst service'. cbn [dataService].
      destruct results as [|r results]; cbn [nonEmpty].
      * eexists. split; [reflexivity|]. split; [simpl; lia | repeat constructor].
      * destruct (sendItem System (relevantText (formatSculptureInfo (r :: results))))
        as [[]|e];
          (eexists; split; [reflexivity|]; split; [simpl; lia | repeat constructor]).
Qed.

(** X13. The enrichment never fails its caller and sends at most one item
    upstream, a system item; all it does to the session is to load the
    document of the data service when that was missing. *)
Theorem enrich_is_contained (userMessage : jsstring) (s : RTSession) :
  completionOf (enrichWithSculptureData readFile JSON_parse sendItem userMessage s)
  = Returns tt
  /\ List.length (sentItems (effectsOf (enrichWithSculptureData
                                          readFile JSON_parse sendItem userMessage s)))
     <= 1
  /\ Forall (fun item => fst item = System)
            (sentItems (effectsOf (enrichWithSculptureData
                                     readFile JSON_parse sendItem userMessage s)))
  /\ sessionAfter (enrichWithSculptureData readFile JSON_parse sendItem userMessage s)
     = match dataService s with
       | Some service =>
         {| dataService := Some (loadIfMissing readFile JSON_parse service) |}
       | None => s
       end.
Proof.
  destruct (enrich_run userMessage s) as [t [-> [Hlen Hall]]].
  unfold completionOf, effectsOf, sessionAfter. cbn [fst snd].
  repeat split; assumption.
Qed.
End EnrichmentMore.



Section EnrichmentChoice.
Variable readFile : jsstring -> Completion jsstring.
Variable JSON_parse : jsstring -> Completion (option SculptureData).
Variable sendItem : Role -> jsstring -> Completion unit.



End EnrichmentChoice.

(** * Properties of the message and response handlers *)

Lemma forAwaitFrom_emit (A : Type) (values : list A) (last : Completion unit)
      (f : A -> Effect) (s : RTSession) :
  forAwaitFrom values last (fun x => emit (f x)) s = ((map f values, s), last).
Proof.
  revert s. induction values as [|x values IH]; intros s; [reflexivity|].
  cbn [forAwaitFrom]. unfold bind.
  change (emit (f x) s) with (([f x], s), Returns tt). cbv iota beta.
  now rewrite IH.
Qed.

Lemma sentFrames_deltas (contentId : jsstring) (chunks : list jsstring)
      (rest : list Effect) :
  sentFrames (map (fun text => Ws_send (TextDelta contentId text)) chunks ++ rest)
  = map (TextDelta contentId) chunks ++ sentFrames rest.
Proof.
  induction chunks as [|c chunks IH]; [reflexivity|].
  simpl. now rewrite <- IH.
Qed.

(** X16. [handleTextContent] forwards every chunk of the stream, in order, as
    a [text_delta] with the id of the content; [text_done] follows when the
    stream ends normally and only then; the handler ends as the stream ends,
    so an error of the stream is thrown again, after the deltas received
    before it have been sent. *)
Theorem handleTextContent_frames (content : RTTextContent) (s : RTSession) :
  sentFrames (effectsOf (handleTextContent content s))
  = map (TextDelta (contentIdOf content)) (yielded (textChunks content))
    ++ match ending (textChunks content) with
       | Returns _ => [TextDone (contentIdOf content)]
       | Throws _ => []
       end
  /\ completionOf (handleTextContent content s) = ending (textChunks content)
  /\ sessionAfter (handleTextContent content s) = s.
Proof.
  unfold handleTextContent, tryCatch, bind, forAwait.
  rewrite forAwaitFrom_emit.
  destruct (ending (textChunks content)) as [[]|e];
    unfold emit, throw, effectsOf, completionOf, sessionAfter; cbn [fst snd].
  - rewrite sentFrames_deltas. repeat split.
  - rewrite sentFrames_deltas. repeat split.
Qed.

Lemma itemsOfRole_app (Buffer : Type) (role : Role) (t1 t2 : list (Action Buffer)) :
  itemsOfRole role (t1 ++ t2) = itemsOfRole role t1 ++ itemsOfRole role t2.
Proof. apply flat_map_app. Qed.

Lemma itemsOfRole_User_system (Buffer : Type) (t : list Effect) :
  Forall (fun item => fst item = System) (sentItems t) ->
  itemsOfRole (Buffer := Buffer) User (map Did t) = [].
Proof.
  induction t as [|e t IH]; intros H; [reflexivity|].
  destruct e as [m|role text|i|q|p|m|m]; simpl in *; try (now apply IH).
  inversion H as [|? ? Hr Ht]; subst. simpl in Hr. subst role.
  now apply IH.
Qed.

Section HandlerFacts.
Variable Buffer : Type.
Variable RTAudioContent : Type.
Variable readFile : jsstring -> Completion jsstring.
Variable JSON_parse : jsstring -> Completion (option SculptureData).
Variable sendItem : Role -> jsstring -> Completion unit.
Variable sendAudio : Buffer -> Completion unit.
Variable generateResponse : Completion unit.
Variable close : Completion unit.
Variable parseMessage : Buffer -> Completion WSMessage.
Variable handleAudioContent : RTAudioContent -> Handler Buffer unit.

(** X17. Neither [handleMessage] nor [handleClose] ever throws: whatever the
    frame holds and however the upstream client answers, the error is
    logged and the handler returns. *)
Theorem handlers_never_throw (message : Buffer) (isBinary : bool) (s : RTSession) :
  completionOf (handleMessage Buffer readFile JSON_parse sendItem sendAudio
                              generateResponse parseMessage message isBinary s)
  = Returns tt
  /\ completionOf (handleClose Buffer close s) = Returns tt.
Proof.
  split.
  - unfold handleMessage, tryCatchH, completionOf.
    destruct ((if isBinary
               then handleBinaryMessage Buffer sendAudio message
               else handleTextMessage Buffer readFile JSON_parse sendItem
                                      generateResponse parseMessage message) s)
      as [[t s'] [[]|e]]; reflexivity.
  - unfold handleClose, tryCatchH, bindH, call, act, completionOf.
    destruct close as [[]|e]; reflexivity.
Qed.

Lemma lift_enrich (text : jsstring) (s : RTSession) :
  exists s',
    lift (Buffer := Buffer)
         (enrichWithSculptureData readFile JSON_parse sendItem text) s
    = ((map Did (effectsOf (enrichWithSculptureData readFile JSON_parse sendItem
                                                    text s)), s'), Returns tt)
    /\ Forall (fun item => fst item = System)
              (sentItems (effectsOf (enrichWithSculptureData
                                       readFile JSON_parse sendItem text s))).
Proof.
  destruct (enrich_run readFile JSON_parse sendItem text s) as [t [E [_ Hall]]].
  unfold lift. rewrite E. unfold effectsOf. cbn [fst]. eexists. split; [reflexivity|].
  exact Hall.
Qed.

(** What [handleTextMessage] does for a [user_message]. *)
Lemma handleTextMessage_run (message : Buffer) (id text : jsstring)
      (s : RTSession) :
  parseMessage message = Returns (UserMessage id text) ->
  actionsOf (handleTextMessage Buffer readFile JSON_parse sendItem
                               generateResponse parseMessage message s)
  = Did (Logger_debug (lit "Received text message"))
    :: map Did (enrichmentOf readFile JSON_parse sendItem text s)
    ++ Did (Client_sendItem User text)
    :: afterUserItem Buffer sendItem generateResponse text.
Proof.
  intros Hp.
  unfold handleTextMessage, bindH at 1. rewrite Hp.
  unfold bindH at 1, act at 1. unfold tryCatchH, bindH at 1.
  unfold enrichmentOf, afterUserItem, actionsOf.
  destruct (dataService s) as [service|] eqn:Es.
  - destruct text as [|c text].
    + cbn [truthy]. unfold bindH, retH, call, act, throwH.
      destruct (sendItem User []) as [[]|e]; [|reflexivity].
      destruct generateResponse as [[]|e]; reflexivity.
    + cbn [truthy]. unfold bindH at 1.
      destruct (lift_enrich (c :: text) s) as [s' [-> _]].
      unfold bindH, retH, call, act, throwH.
      destruct (sendItem User (c :: text)) as [[]|e];
        [|cbn [fst app]; rewrite <- ?app_assoc, ?app_nil_r; reflexivity].
      destruct generateResponse as [[]|e];
        cbn [fst app]; rewrite <- ?app_assoc, ?app_nil_r; reflexivity.
  - unfold bindH, retH, call, act, throwH.
    destruct (sendItem User text) as [[]|e]; [|reflexivity].
    destruct generateResponse as [[]|e]; reflexivity.
Qed.

(** X18. For a [user_message], [handleTextMessage] first runs the enrichment,
    when there is a data service and the text is not empty, then sends the
    text of the user upstream, unchanged and once, whatever became of the
    enrichment, and asks for a response when that item was accepted. *)
Theorem handleTextMessage_forwards (message : Buffer) (id text : jsstring)
        (s : RTSession) :
  parseMessage message = Returns (UserMessage id text) ->
  actionsOf (handleTextMessage Buffer readFile JSON_parse sendItem
                               generateResponse parseMessage message s)
  = Did (Logger_debug (lit "Received text message"))
    :: map Did (enrichmentOf readFile JSON_parse sendItem text s)
    ++ Did (Client_sendItem User text)
    :: afterUserItem Buffer sendItem generateResponse text
  /\ itemsOfRole User
                 (actionsOf (handleTextMessage Buffer readFile JSON_parse sendItem
                                               generateResponse parseMessage
                                               message s))
     = [text].
Proof.
  intros Hp. pose proof (handleTextMessage_run message id text s Hp) as Hrun.
  split; [exact Hrun|].
  rewrite Hrun. change (?a :: ?l ++ ?b :: ?r) with ([a] ++ l ++ [b] ++ r).
  rewrite !itemsOfRole_app.
  assert (He : itemsOfRole (Buffer := Buffer) User
                 (map Did (enrichmentOf readFile JSON_parse sendItem text s)) = []).
  { unfold enrichmentOf. destruct (dataService s); [|reflexivity].
    destruct (truthy (Some text)); [|reflexivity].
    apply itemsOfRole_User_system.
    now destruct (lift_enrich text s) as [s' [_ Hall]]. }
  rewrite He. unfold afterUserItem.
  destruct (sendItem User text); [destruct generateResponse|]; reflexivity.
Qed.
End HandlerFacts.

Lemma forAwaitFromH_stops (Buffer A : Type) (body : A -> Handler Buffer unit)
      (pre post : list A) (x : A) (last : Completion unit)
      (s s1 s2 : RTSession) (t1 t2 : list (Action Buffer)) (e : jsstring) :
  forAwaitFromH pre (Returns tt) body s = ((t1, s1), Returns tt) ->
  body x s1 = ((t2, s2), Throws e) ->
  forAwaitFromH (pre ++ x :: post) last body s = ((t1 ++ t2, s2), Throws e).
Proof.
  revert s t1. induction pre as [|p pre IH]; intros s t1 Hpre Hx.
  - cbn [forAwaitFromH] in *. injection Hpre as <- <-.
    cbn [app forAwaitFromH]. unfold bindH. now rewrite Hx.
  - cbn [app forAwaitFromH] in *. unfold bindH in *.
    destruct (body p s) as [[tp sp] [[]|ep]]; [|discriminate Hpre].
    destruct (forAwaitFromH pre (Returns tt) body sp) as [[tr sr] r] eqn:Er.
    injection Hpre as <- <- ->.
    rewrite (IH sp tr Er Hx). now rewrite app_assoc.
Qed.

Section HandlerFlow.
Variable Buffer : Type.
Variable RTAudioContent : Type.
Variable readFile : jsstring -> Completion jsstring.
Variable JSON_parse : jsstring -> Completion (option SculptureData).
Variable sendItem : Role -> jsstring -> Completion unit.
Variable sendAudio : Buffer -> Completion unit.
Variable generateResponse : Completion unit.
Variable parseMessage : Buffer -> Completion WSMessage.
Variable handleAudioContent : RTAudioContent -> Handler Buffer unit.

(** X19. Only a [user_message] makes the session send an item or ask for a
    response: a binary frame goes upstream as audio and nothing else, and a
    text frame that does not parse, or parses to another type of message,
    causes no call upstream at all; neither touches the session. *)
Theorem frames_other_than_user_messages (message : Buffer) (s : RTSession) :
  (filter isUpstream
          (actionsOf (handleMessage Buffer readFile JSON_parse sendItem sendAudio
                                    generateResponse parseMessage message true s))
   = [Client_sendAudio message]
   /\ sessionAfter (handleMessage Buffer readFile JSON_parse sendItem sendAudio
                                  generateResponse parseMessage message true s)
      = s)
  /\ ((forall id text, parseMessage message <> Returns (UserMessage id text)) ->
      filter isUpstream
             (actionsOf (handleMessage Buffer readFile JSON_parse sendItem sendAudio
                                       generateResponse parseMessage message false s))
      = []
      /\ sessionAfter (handleMessage Buffer readFile JSON_parse sendItem sendAudio
                                     generateResponse parseMessage message false s)
         = s).
Proof.
  split.
  - unfold handleMessage, handleBinaryMessage, tryCatchH, bindH, call, act,
      throwH, actionsOf, sessionAfter.
    destruct (sendAudio message) as [[]|e]; split; reflexivity.
  - intros Hno.
    unfold handleMessage, handleTextMessage, tryCatchH, bindH, act, retH,
      actionsOf, sessionAfter.
    destruct (parseMessage message) as [[i x|i x|i x| |g|i]|e] eqn:E;
      try (split; reflexivity).
    exfalso. now apply (Hno i x).
Qed.

Lemma initializeDataService_run (path : jsstring) (s : RTSession) :
  sessionAfter (initializeDataService Buffer readFile JSON_parse path s)
  = {| dataService :=
         if fst (loadData readFile JSON_parse (newJsonDataService path))
         then Some (snd (loadData readFile JSON_parse (newJsonDataService path)))
         else None |}.
Proof.
  unfold initializeDataService, tryCatchH, bindH, set_dataService, act, sessionAfter.
  cbn [dataService].
  destruct (loadData readFile JSON_parse (newJsonDataService path))
    as [[|] service']; reflexivity.
Qed.

(** X20. [initializeDataService] leaves the session with a data service
    exactly when [loadData] reported success.  When the file cannot be read
    or parsed the session has none, and a [user_message] is then sent
    upstream without enrichment and without any call on a data service;
    when the file holds a document the session has the loaded service. *)
Theorem initializeDataService_decides_enrichment (path : jsstring)
        (s : RTSession) (message : Buffer) (id text : jsstring) :
  (loadFails readFile JSON_parse path ->
   dataService (sessionAfter (initializeDataService Buffer readFile JSON_parse
                                                    path s))
   = None
   /\ (parseMessage message = Returns (UserMessage id text) ->
       actionsOf (handleTextMessage
                    Buffer readFile JSON_parse sendItem generateResponse
                    parseMessage message
                    (sessionAfter (initializeDataService Buffer readFile JSON_parse
                                                         path s)))
       = Did (Logger_debug (lit "Received text message"))
         :: Did (Client_sendItem User text)
         :: afterUserItem Buffer sendItem generateResponse text))
  /\ (forall content d,
         readFile path = Returns content ->
         JSON_parse content = Returns (Some d) ->
         dataService (sessionAfter (initializeDataService Buffer readFile JSON_parse
                                                          path s))
         = Some (loaded path d)).
Proof.
  rewrite initializeDataService_run. split.
  - intros Hf.
    rewrite (loadData_fails readFile JSON_parse (newJsonDataService path) Hf).
    cbn [fst dataService]. split; [reflexivity|]. intros Hp.
    rewrite (handleTextMessage_run
               Buffer readFile JSON_parse sendItem generateResponse parseMessage
               message id text {| dataService := None |} Hp).
    reflexivity.
  - intros content d Hr Hparse. unfold loadData. cbn [dataPath newJsonDataService].
    rewrite Hr, Hparse. reflexivity.
Qed.

(** X21. [handleResponse] stops at the first item whose handling fails: the
    error is logged and thrown again, and neither the items after it nor
    the way the stream would have ended make any difference. *)
Theorem handleResponse_stops_at_failure
        (pre post : list (RTItem RTAudioContent)) (bad : RTItem RTAudioContent)
        (last : Completion unit) (s s1 s2 : RTSession)
        (t1 t2 : list (Action Buffer)) (e : jsstring) :
  forAwaitH {| yielded := pre; ending := Returns tt |}
            (handleItem Buffer RTAudioContent handleAudioContent) s
  = ((t1, s1), Returns tt) ->
  handleItem Buffer RTAudioContent handleAudioContent bad s1
  = ((t2, s2), Throws e) ->
  handleResponse Buffer RTAudioContent handleAudioContent
                 {| yielded := pre ++ bad :: post; ending := last |} s
  = ((t1 ++ t2 ++ [Did (Logger_error (lit "Error handling response"))], s2),
     Throws e).
Proof.
  intros Hpre Hbad. unfold forAwaitH in Hpre. cbn [yielded ending] in Hpre.
  unfold handleResponse, tryCatchH, bindH, forAwaitH. cbn [yielded ending].
  rewrite (forAwaitFromH_stops Buffer _ _ pre post bad last s s1 s2 t1 t2 e Hpre Hbad).
  unfold act, throwH. cbn [app]. now rewrite <- app_assoc.
Qed.



(** X23. When the first of the four items is rejected, [startEventLoop] ends
    there: the three other items are not sent and no event is ever handled. *)
Theorem startEventLoop_needs_first_item
        (events : AsyncIterable (RTEvent RTAudioContent)) (s : RTSession)
        (e : jsstring) :
  sendItem System personaPrompt = Throws e ->
  startEventLoop Buffer RTAudioContent sendItem handleAudioContent events s
  = (([Did (Client_sendItem System personaPrompt)], s), Throws e).
Proof.
  intros Hp. unfold startEventLoop, seedConversation, bindH, call.
  now rewrite Hp.
Qed.
End HandlerFlow.

(** X24. [handleInputAudio] always sends [speech_started] first; the
    [transcription] message follows when the completion is signalled and
    only then, and when the wait fails the handler throws that error
    again; the session is left as it was. *)
Theorem handleInputAudio_frames (event : RTInputAudioItem) (s : RTSession) :
  sentFrames (effectsOf (handleInputAudio event s))
  = SpeechStarted
    :: match completion event with
       | Returns _ => [Transcription (id event) (valueOf (transcription event))]
       | Throws _ => []
       end
  /\ completionOf (handleInputAudio event s) = completion event
  /\ sessionAfter (handleInputAudio event s) = s.
Proof.
  unfold handleInputAudio, tryCatch, bind, emit, waitForCompletion, throw,
    effectsOf, completionOf, sessionAfter.
  destruct (completion event) as [[]|e]; cbn [fst snd app].
  - destruct (transcription event) as [[|c t]|]; repeat split.
  - repeat split.
Qed.

End Program.

(** * The program at concrete inputs

    Below, the program runs with [latinLowerCase] for [toLowerCase] and
    [decimal] for [numberToString], on the dataset and on strings written
    in the Latin blocks. *)

(** ** [latinLowerCase] has what is asked of [toLowerCase] *)

Lemma latinLowerCase_keepsWhiteSpace : keepsWhiteSpace latinLowerCase.
Proof. intros w Hw. now apply latinLowerCase_space. Qed.


Lemma latinLowerCase_commutesWithTrim : commutesWithTrim latinLowerCase.
Proof. intros s. apply latinLowerCase_trim. Qed.

Lemma latinLowerCase_agreesOnLatin : agreesOnLatin latinLowerCase.
Proof. intros s _. reflexivity. Qed.

Lemma sculptures_json_cases (P : Sculpture -> Prop) :
  P tympanum -> P charles_the_fourth -> P anna_of_schweidnitz -> P votive_relief ->
  forall s, In s (sculptures sculptures_json) -> P s.
Proof.
  intros H1 H2 H3 H4 s [<-|[<-|[<-|[<-|[]]]]]; assumption.
Qed.

(** ** The claims at concrete inputs *)


(** C2 on the dataset, for a name criterion and an artist criterion. *)
Lemma searchSculptures_accepts_witness :
  let params := Params.make (Some (lit "of")) (Some (lit "Unknown")) None None in
  anyPresent params
  /\ exists results,
       searchSculptures latinLowerCase noFile noParse galleryService params
       = (results, galleryService)
       /\ Selection (Accepts latinLowerCase params) (sculptures sculptures_json) results.
Proof.
  split; [left; reflexivity|].
  apply (searchSculptures_accepts latinLowerCase noFile noParse
                                  (lit "data/sculptures.json") sculptures_json).
  left; reflexivity.
Defined.

(** C3 on the dataset, for an absent name and an empty artist criterion. *)
Lemma searchSculptures_no_criteria_witness :
  let params := Params.make None (Some (lit "")) None None in
  nonePresent params
  /\ fst (searchSculptures latinLowerCase noFile noParse galleryService params) = [].
Proof.
  assert (H : nonePresent (Params.make None (Some (lit "")) None None)).
  { unfold nonePresent, present. simpl. repeat split; discriminate. }
  split; [exact H|].
  exact (searchSculptures_no_criteria latinLowerCase noFile noParse galleryService _ H).
Defined.

(** C4 as it is stated fails on a document with two records whose names
    differ by a space at the end.  The message contains both names, the
    longer one is the padded one, and [getSculptureByName], which trims
    its query, answers with the other record: the fact sheet sent is not
    that of the record of the longest matching name. *)
Lemma enrich_named_counterexample :
  let message := lit "Is Anna of Schweidnitz here?" in
  let padded := namedOnly (lit "Anna of Schweidnitz ") in
  get_sculptures paddedService = [padded; anna_of_schweidnitz]
  /\ includes (latinLowerCase message) (latinLowerCase (name padded)) = true
  /\ includes (latinLowerCase message) (latinLowerCase (name anna_of_schweidnitz))
     = true
  /\ List.length (name anna_of_schweidnitz) < List.length (name padded)
  /\ effectsOf (enrichWithSculptureData latinLowerCase noFile noParse accepted message
                                        {| dataService := Some paddedService |})
     = [DataService_getSculptureByName (name padded);
        Client_sendItem System
          (foundText anna_of_schweidnitz (formatSculptureInfo [anna_of_schweidnitz]))]
  /\ fst (getSculptureByName latinLowerCase noFile noParse paddedService (name padded))
     = Some anna_of_schweidnitz
  /\ name anna_of_schweidnitz <> name padded
  /\ latinLowerCase (name anna_of_schweidnitz) <> latinLowerCase (name padded).
Proof.
  intros message padded.
  split; [reflexivity|].
  split; [vm_compute; reflexivity|]. split; [vm_compute; reflexivity|].
  split; [vm_compute; lia|].
  split; [vm_compute; reflexivity|]. split; [vm_compute; reflexivity|].
  split; vm_compute; discriminate.
Qed.

(** C4, amended, on the dataset, for a message that names a record. *)
Lemma enrich_named_sculpture_witness :
  dataService gallerySession = Some galleryService
  /\ (exists r, In r (get_sculptures galleryService)
                /\ includes (latinLowerCase (lit "Who was Anna of Schweidnitz?"))
                            (latinLowerCase (name r)) = true)
  /\ agreesOnLatin latinLowerCase
  /\ (exists bestMatch sculpture text,
         getSculptureByName latinLowerCase noFile noParse galleryService bestMatch
         = (Some sculpture, galleryService)
         /\ sentItems (effectsOf (enrichWithSculptureData
                                    latinLowerCase noFile noParse accepted
                                    (lit "Who was Anna of Schweidnitz?")
                                    gallerySession))
            = [(System, text)])
  /\ exists text,
       sentItems (effectsOf (enrichWithSculptureData
                               latinLowerCase noFile noParse accepted
                               (lit "tell me about Charles the fourth")
                               gallerySession))
       = [(System, text)]
       /\ includes text (lit "Name: Charles the fourth") = true
       /\ includes text (lit "Year: between 1375 - 1378") = true.
Proof.
  assert (H : exists r, In r (get_sculptures galleryService)
                        /\ includes (latinLowerCase (lit "Who was Anna of Schweidnitz?"))
                                    (latinLowerCase (name r)) = true).
  { exists anna_of_schweidnitz.
    split; [right; right; left; reflexivity | vm_compute; reflexivity]. }
  split; [reflexivity|]. split; [exact H|].
  split; [exact latinLowerCase_agreesOnLatin|].
  destruct (enrich_named_sculpture latinLowerCase noFile noParse accepted)
    as [Hall Hcharles].
  split.
  - destruct (Hall galleryService (lit "Who was Anna of Schweidnitz?")
                   gallerySession eq_refl H)
      as [bestMatch [sculpture [factSheet [text
            [_ [_ [_ [Hget [_ [_ [_ [_ [_ Hsent]]]]]]]]]]]]].
    exists bestMatch, sculpture, text. split; [exact Hget | exact Hsent].
  - exact (Hcharles latinLowerCase_agreesOnLatin).
Defined.

(** C5 on the dataset, for a message that names no record. *)
Lemma enrich_fallback_search_witness :
  dataService gallerySession = Some galleryService
  /\ (forall r, In r (get_sculptures galleryService) ->
                includes (latinLowerCase (lit "Where is  the CAFE?"))
                         (latinLowerCase (name r)) = false)
  /\ agreesOnLatin latinLowerCase
  /\ (exists criteria,
         criteria = Params.make (Some (lit "where is the cafe?"))
                                (Some (lit "where is the cafe?"))
                                (Some (lit "where is the cafe?"))
                                (Some (lit "where is the cafe?"))
         /\ searchCalls (effectsOf (enrichWithSculptureData
                                      latinLowerCase noFile noParse accepted
                                      (lit "Where is  the CAFE?") gallerySession))
            = [criteria])
  /\ sentItems (effectsOf (enrichWithSculptureData
                             latinLowerCase noFile noParse accepted
                             (lit "What is the weather today?") gallerySession))
     = [].
Proof.
  assert (H : forall r, In r (get_sculptures galleryService) ->
                        includes (latinLowerCase (lit "Where is  the CAFE?"))
                                 (latinLowerCase (name r)) = false).
  { apply (sculptures_json_cases
             (fun r => includes (latinLowerCase (lit "Where is  the CAFE?"))
                                (latinLowerCase (name r)) = false));
      vm_compute; reflexivity. }
  split; [reflexivity|]. split; [exact H|].
  split; [exact latinLowerCase_agreesOnLatin|].
  destruct (enrich_fallback_search latinLowerCase noFile noParse accepted)
    as [Hall Hweather].
  split.
  - destruct (Hall galleryService (lit "Where is  the CAFE?") gallerySession eq_refl H)
      as [joined [criteria [results [text [Hj [Hc [_ [_ [_ [Hcalls _]]]]]]]]]].
    exists criteria. split; [|exact Hcalls].
    rewrite Hc, Hj. vm_compute. reflexivity.
  - exact (proj2 (Hweather latinLowerCase_agreesOnLatin)).
Defined.

(** C6 for a new service on a host without the file. *)
Lemma accessors_degrade_witness :
  let self := newJsonDataService (lit "data/sculptures.json") in
  let params := Params.make (Some (lit "Charles")) None None None in
  data self = None
  /\ loadFails noFile noParse (dataPath self)
  /\ loadData noFile noParse self = (false, self)
  /\ findSculptureByName latinLowerCase noFile noParse self (lit "Charles") = ([], self)
  /\ getSculptureByName latinLowerCase noFile noParse self (lit "Charles") = (None, self)
  /\ searchSculptures latinLowerCase noFile noParse self params = ([], self)
  /\ getGalleryInfo noFile noParse self = (None, self)
  /\ getGothicStyleInfo noFile noParse self = (None, self).
Proof.
  assert (H : loadFails noFile noParse
                        (dataPath (newJsonDataService (lit "data/sculptures.json")))).
  { left. exists (lit "ENOENT"). reflexivity. }
  split; [reflexivity|]. split; [exact H|].
  exact (accessors_degrade latinLowerCase noFile noParse
           (newJsonDataService (lit "data/sculptures.json")) (lit "Charles")
           (Params.make (Some (lit "Charles")) None None None) eq_refl H).
Defined.

(** C7 for an item completed without a transcription. *)
Lemma handleInputAudio_completed_witness :
  let event := {| id := lit "item_1"; completion := Returns tt;
                  transcription := None |} in
  completion event = Returns tt
  /\ exists text,
       text = lit ""
       /\ handleInputAudio event gallerySession
          = (([Ws_send SpeechStarted;
               Event_waitForCompletion (lit "item_1");
               Ws_send (Transcription (lit "item_1") text);
               Logger_debug (lit "Input audio processed successfully")],
              gallerySession),
             Returns tt)
       /\ sentFrames (effectsOf (handleInputAudio event gallerySession))
          = [SpeechStarted; Transcription (lit "item_1") text].
Proof.
  split; [reflexivity|].
  exact (handleInputAudio_completed
           {| id := lit "item_1"; completion := Returns tt; transcription := None |}
           gallerySession eq_refl).
Defined.

(** C8 as it is stated fails on a document with a record whose name is
    made of punctuation: the empty query matches that record in the
    normalized tier, so the search stops there and [getSculptureByName]
    returns it, not the record of longest name. *)
Lemma blank_query_counterexample :
  sculptures untitledData <> []
  /\ allSpace (lit "")
  /\ fst (findSculptureByName latinLowerCase noFile noParse
                              (loaded (lit "data.json") untitledData) (lit ""))
     = [namedOnly (lit "?")]
  /\ sortDesc nameLength (sculptures untitledData)
     = [namedOnly (lit "Anna"); namedOnly (lit "?")]
  /\ fst (findSculptureByName latinLowerCase noFile noParse
                              (loaded (lit "data.json") untitledData) (lit ""))
     <> sortDesc nameLength (sculptures untitledData)
  /\ fst (getSculptureByName latinLowerCase noFile noParse
                             (loaded (lit "data.json") untitledData) (lit ""))
     = Some (namedOnly (lit "?"))
  /\ nameLength (namedOnly (lit "?")) < nameLength (namedOnly (lit "Anna")).
Proof.
  split; [discriminate|]. split; [constructor|].
  split; [reflexivity|]. split; [reflexivity|].
  split; [vm_compute; discriminate|]. split; [reflexivity|].
  vm_compute. lia.
Qed.

(** No name of the dataset normalizes to the empty string. *)
Lemma sculptures_json_names_normalize :
  forall s, In s (sculptures sculptures_json) ->
            normalizeName latinLowerCase (name s) <> [].
Proof.
  apply (sculptures_json_cases
           (fun s => normalizeName latinLowerCase (name s) <> []));
    vm_compute; discriminate.
Qed.

(** C8, amended, for the table of the Latin blocks as [toLowerCase], on
    every document and for every query; and on the dataset for a query of
    two spaces. *)
Lemma findSculptureByName_blank_query_witness :
  keepsWhiteSpace latinLowerCase
  /\ (forall (readFile : jsstring -> Completion jsstring)
             (JSON_parse : jsstring -> Completion (option SculptureData))
             (path : jsstring) (d : SculptureData) (query : jsstring),
         allSpace query ->
         (forall s, In s (sculptures d) -> normalizeName latinLowerCase (name s) <> []) ->
         sculptures d <> [] ->
         findSculptureByName latinLowerCase readFile JSON_parse (loaded path d) query
         = (sortDesc nameLength (sculptures d), loaded path d)
         /\ Permutation (sortDesc nameLength (sculptures d)) (sculptures d)
         /\ StronglySorted (descending nameLength)
                           (sortDesc nameLength (sculptures d))
         /\ exists longest,
              getSculptureByName latinLowerCase readFile JSON_parse (loaded path d) query
              = (Some longest, loaded path d)
              /\ In longest (sculptures d)
              /\ forall s, In s (sculptures d) -> nameLength s <= nameLength longest)
  /\ allSpace (lit "  ")
  /\ (forall s, In s (sculptures sculptures_json) ->
                normalizeName latinLowerCase (name s) <> [])
  /\ sculptures sculptures_json <> []
  /\ findSculptureByName latinLowerCase noFile noParse galleryService (lit "  ")
     = ([tympanum; votive_relief; anna_of_schweidnitz; charles_the_fourth],
        galleryService)
  /\ fst (getSculptureByName latinLowerCase noFile noParse galleryService (lit "  "))
     = Some tympanum.
Proof.
  assert (Hq : allSpace (lit "  ")) by (repeat constructor).
  assert (Hd : sculptures sculptures_json <> []) by discriminate.
  split; [exact latinLowerCase_keepsWhiteSpace|].
  split.
  { intros readFile JSON_parse path d query.
    exact (findSculptureByName_blank_query
             latinLowerCase readFile JSON_parse path d query
             latinLowerCase_keepsWhiteSpace). }
  split; [exact Hq|]. split; [exact sculptures_json_names_normalize|].
  split; [exact Hd|].
  destruct (findSculptureByName_blank_query
              latinLowerCase noFile noParse (lit "data/sculptures.json")
              sculptures_json (lit "  ") latinLowerCase_keepsWhiteSpace Hq
              sculptures_json_names_normalize Hd)
    as [Hfind _].
  split.
  - unfold galleryService. rewrite Hfind. vm_compute. reflexivity.
  - unfold getSculptureByName, galleryService. rewrite Hfind. vm_compute. reflexivity.
Defined.

(** C9 for the table of the Latin blocks as [toLowerCase], on every
    document and for all criteria; and on the dataset for a name criterion
    of one space. *)
Lemma searchSculptures_blank_criteria_witness :
  let params := Params.make (Some (lit " ")) None None None in
  keepsWhiteSpace latinLowerCase
  /\ (forall (readFile : jsstring -> Completion jsstring)
             (JSON_parse : jsstring -> Completion (option SculptureData))
             (path : jsstring) (d : SculptureData) (criteria : Params.t),
         anyPresent criteria ->
         blank (Params.name criteria) -> blank (Params.artist criteria) ->
         blank (Params.location criteria) -> blank (Params.year criteria) ->
         searchSculptures latinLowerCase readFile JSON_parse (loaded path d) criteria
         = (sculptures d, loaded path d))
  /\ anyPresent params
  /\ blank (Params.name params) /\ blank (Params.artist params)
  /\ blank (Params.location params) /\ blank (Params.year params)
  /\ searchSculptures latinLowerCase noFile noParse galleryService params
     = (sculptures sculptures_json, galleryService).
Proof.
  assert (H1 : anyPresent (Params.make (Some (lit " ")) None None None))
    by (left; reflexivity).
  assert (H2 : blank (Some (lit " "))) by (repeat constructor).
  assert (H3 : blank None) by constructor.
  split; [exact latinLowerCase_keepsWhiteSpace|].
  split.
  { intros readFile JSON_parse path d criteria.
    exact (searchSculptures_blank_criteria
             latinLowerCase readFile JSON_parse path d criteria
             latinLowerCase_keepsWhiteSpace). }
  split; [exact H1|]. split; [exact H2|]. split; [exact H3|].
  split; [exact H3|]. split; [exact H3|].
  exact (searchSculptures_blank_criteria
           latinLowerCase noFile noParse (lit "data/sculptures.json") sculptures_json
           (Params.make (Some (lit " ")) None None None)
           latinLowerCase_keepsWhiteSpace H1 H2 H3 H3 H3).
Defined.

(** C10 as it is stated fails on the dataset for the message made of the
    letter o between two spaces.  No name is contained in the message, the
    rejoined message is the message itself, and the fallback search
    returns the votive relief, which is sent upstream, although its name
    has no o between two spaces: the search trims its criteria. *)
Lemma fallback_search_counterexample :
  let message := lit " o " in
  let joined := join (lit " ") (splitSpaces (latinLowerCase message)) in
  joined = lit " o "
  /\ (forall r, In r (get_sculptures galleryService) ->
                includes (latinLowerCase message) (latinLowerCase (name r)) = false)
  /\ fst (searchSculptures latinLowerCase noFile noParse galleryService
                           (Params.make (Some joined) (Some joined)
                                        (Some joined) (Some joined)))
     = [votive_relief]
  /\ sentItems (effectsOf (enrichWithSculptureData
                             latinLowerCase noFile noParse accepted message
                             gallerySession))
     = [(System, relevantText (formatSculptureInfo [votive_relief]))]
  /\ ~ (exists pre post,
           latinLowerCase (name votive_relief) = pre ++ joined ++ post).
Proof.
  intros message joined.
  split; [vm_compute; reflexivity|].
  split.
  { apply (sculptures_json_cases
             (fun r => includes (latinLowerCase message) (latinLowerCase (name r))
                       = false)); vm_compute; reflexivity. }
  split; [vm_compute; reflexivity|]. split; [vm_compute; reflexivity|].
  intros H. apply includes_spec in H. vm_compute in H. discriminate H.
Qed.

(** C10, amended, on the dataset, for a padded name criterion and for the
    message of the counterexample. *)
Lemma searchSculptures_name_required_witness :
  let params := Params.make (Some (lit " Charles")) (Some (lit "Unknown")) None None in
  let joined := join (lit " ") (splitSpaces (latinLowerCase (lit " o "))) in
  present (Params.name params)
  /\ In charles_the_fourth
        (fst (searchSculptures latinLowerCase noFile noParse galleryService params))
  /\ (exists pre post,
         latinLowerCase (name charles_the_fourth)
         = pre ++ trim (latinLowerCase (lit " Charles")) ++ post)
  /\ In votive_relief
        (fst (searchSculptures latinLowerCase noFile noParse galleryService
                               (Params.make (Some joined) (Some joined)
                                            (Some joined) (Some joined))))
  /\ exists pre post,
       latinLowerCase (name votive_relief)
       = pre ++ trim (latinLowerCase joined) ++ post.
Proof.
  intros params joined.
  assert (H1 : present (Some (lit " Charles"))) by reflexivity.
  assert (H2 : In charles_the_fourth
                  (fst (searchSculptures latinLowerCase noFile noParse galleryService
                          (Params.make (Some (lit " Charles")) (Some (lit "Unknown"))
                                       None None)))).
  { vm_compute. left. reflexivity. }
  assert (H3 : In votive_relief
                  (fst (searchSculptures latinLowerCase noFile noParse galleryService
                          (Params.make (Some joined) (Some joined)
                                       (Some joined) (Some joined))))).
  { vm_compute. left. reflexivity. }
  destruct (searchSculptures_name_required latinLowerCase noFile noParse galleryService)
    as [Hname Hjoined].
  split; [exact H1|]. split; [exact H2|].
  split; [exact (Hname (Params.make (Some (lit " Charles")) (Some (lit "Unknown"))
                                    None None)
                       charles_the_fourth H1 H2)|].
  split; [exact H3|].
  exact (Hjoined (lit " o ") joined votive_relief eq_refl H3).
Defined.

(** ** The service on the dataset *)

Example utf8_decode_units :
  lit "Týn – ř" = [84; 253; 110; 32; 8211; 32; 345]%N.
Proof. reflexivity. Qed.

Example latinLowerCase_letters : latinLowerCase (lit "Charles ÝŘ") = lit "charles ýř".
Proof. reflexivity. Qed.

Example splitSpaces_ends :
  splitSpaces (lit " a  b ") = [lit ""; lit "a"; lit "b"; lit ""].
Proof. reflexivity. Qed.

Example normalizeName_punctuation :
  normalizeName latinLowerCase (lit "  Anna,  of Schweidnitz! ")
  = lit "anna of schweidnitz".
Proof. reflexivity. Qed.

(** An exact match, whatever the case and the white space around. *)
Example find_exact :
  fst (findSculptureByName latinLowerCase noFile noParse galleryService
                           (lit " CHARLES the Fourth "))
  = [charles_the_fourth].
Proof. vm_compute. reflexivity. Qed.

(** A match after normalization only. *)
Example find_normalized :
  exactMatches latinLowerCase sculptures_json (lit "Anna, of Schweidnitz!") = []
  /\ fst (findSculptureByName latinLowerCase noFile noParse galleryService
                              (lit "Anna, of Schweidnitz!"))
     = [anna_of_schweidnitz].
Proof. split; vm_compute; reflexivity. Qed.

(** Partial matches, longest name first. *)
Example find_partial :
  fst (findSculptureByName latinLowerCase noFile noParse galleryService (lit "of"))
  = [tympanum; votive_relief; anna_of_schweidnitz].
Proof. vm_compute. reflexivity. Qed.

(** A criterion on a field filters the records that have the field. *)
Example search_location :
  fst (searchSculptures latinLowerCase noFile noParse galleryService
         (Params.make None None (Some (lit "PRAGUE ")) None))
  = [tympanum].
Proof. vm_compute. reflexivity. Qed.

(** A service that has not loaded tries to, and finds nothing when it
    cannot. *)
Example find_unloaded :
  findSculptureByName latinLowerCase noFile noParse
                      (newJsonDataService (lit "data/sculptures.json"))
                      (lit "Charles the fourth")
  = ([], newJsonDataService (lit "data/sculptures.json")).
Proof. reflexivity. Qed.

(** * The further properties at concrete inputs *)

Example contentIdOf_brokenText : contentIdOf decimal brokenText = lit "item_1-0".
Proof. reflexivity. Qed.


(** The name "Anna!" normalizes to letters. *)
Lemma normalizeName_alphabet_witness :
  In 97%N (normalizeName latinLowerCase (lit "Anna!"))
  /\ (isWord 97 = true \/ 97%N = 32%N).
Proof.
  assert (H : In 97%N (normalizeName latinLowerCase (lit "Anna!")))
    by (vm_compute; left; reflexivity).
  split; [exact H|].
  exact (normalizeName_alphabet latinLowerCase (lit "Anna!") 97%N H).
Defined.

(** A new service on a host whose file holds the dataset. *)
Lemma accessors_load_lazily_witness :
  let self := newJsonDataService (lit "data/sculptures.json") in
  data self = None
  /\ datasetFile (dataPath self) = Returns (lit "dataset")
  /\ parsesToDataset (lit "dataset") = Returns (Some sculptures_json)
  /\ loadData datasetFile parsesToDataset self = (true, galleryService)
  /\ findSculptureByName latinLowerCase datasetFile parsesToDataset self
                         (lit "Charles the fourth")
     = findSculptureByName latinLowerCase datasetFile parsesToDataset galleryService
                           (lit "Charles the fourth").
Proof.
  destruct (accessors_load_lazily
              latinLowerCase datasetFile parsesToDataset
              (newJsonDataService (lit "data/sculptures.json")) (lit "dataset")
              sculptures_json (lit "Charles the fourth")
              (Params.make None None None None) eq_refl eq_refl eq_refl)
    as [Hload [Hfind _]].
  split; [reflexivity|]. split; [reflexivity|]. split; [reflexivity|].
  split; [exact Hload | exact Hfind].
Defined.

(** A new service on a host whose file holds [null]. *)
Lemma null_document_witness :
  let self := newJsonDataService (lit "data/sculptures.json") in
  data self = None
  /\ datasetFile (dataPath self) = Returns (lit "dataset")
  /\ parsesToNull (lit "dataset") = Returns None
  /\ loadData datasetFile parsesToNull self = (true, self)
  /\ findSculptureByName latinLowerCase datasetFile parsesToNull self
                         (lit "Charles the fourth")
     = ([], self).
Proof.
  destruct (null_document
              latinLowerCase datasetFile parsesToNull
              (newJsonDataService (lit "data/sculptures.json")) (lit "dataset")
              (lit "Charles the fourth") (Params.make None None None None)
              eq_refl eq_refl eq_refl)
    as [Hload [Hfind _]].
  split; [reflexivity|]. split; [reflexivity|]. split; [reflexivity|].
  split; [exact Hload | exact Hfind].
Defined.

Lemma findSculptureByName_case_and_padding_witness :
  commutesWithTrim latinLowerCase
  /\ allSpace (lit " ") /\ allSpace (lit "  ")
  /\ latinLowerCase (lit "CHARLES the Fourth") = latinLowerCase (lit "Charles the fourth")
  /\ getSculptureByName latinLowerCase noFile noParse galleryService
                        (lit " " ++ lit "CHARLES the Fourth" ++ lit "  ")
     = getSculptureByName latinLowerCase noFile noParse galleryService
                          (lit "Charles the fourth").
Proof.
  assert (H1 : allSpace (lit " ")) by (repeat constructor).
  assert (H2 : allSpace (lit "  ")) by (repeat constructor).
  assert (H3 : latinLowerCase (lit "CHARLES the Fourth")
               = latinLowerCase (lit "Charles the fourth"))
    by (vm_compute; reflexivity).
  split; [exact latinLowerCase_commutesWithTrim|].
  split; [exact H1|]. split; [exact H2|]. split; [exact H3|].
  exact (proj2 (findSculptureByName_case_and_padding
                  latinLowerCase noFile noParse galleryService (lit " ")
                  (lit "CHARLES the Fourth") (lit "  ")
                  (lit "Charles the fourth")
                  latinLowerCase_commutesWithTrim H1 H2 H3)).
Defined.

Lemma searchSculptures_case_and_padding_witness :
  let p' := Params.make (Some (lit "  VOTIVE ")) None None (Some (lit "Before")) in
  let p := Params.make (Some (lit "votive")) None None (Some (lit "before")) in
  sameCriterion latinLowerCase (Params.name p') (Params.name p)
  /\ sameCriterion latinLowerCase (Params.artist p') (Params.artist p)
  /\ sameCriterion latinLowerCase (Params.location p') (Params.location p)
  /\ sameCriterion latinLowerCase (Params.year p') (Params.year p)
  /\ searchSculptures latinLowerCase noFile noParse galleryService p'
     = searchSculptures latinLowerCase noFile noParse galleryService p.
Proof.
  assert (H1 : sameCriterion latinLowerCase (Some (lit "  VOTIVE ")) (Some (lit "votive")))
    by (split; vm_compute; reflexivity).
  assert (H2 : sameCriterion latinLowerCase None None) by (split; reflexivity).
  assert (H3 : sameCriterion latinLowerCase (Some (lit "Before")) (Some (lit "before")))
    by (split; vm_compute; reflexivity).
  split; [exact H1|]. split; [exact H2|]. split; [exact H2|]. split; [exact H3|].
  exact (searchSculptures_case_and_padding
           latinLowerCase noFile noParse galleryService
           (Params.make (Some (lit "votive")) None None (Some (lit "before")))
           (Params.make (Some (lit "  VOTIVE ")) None None (Some (lit "Before")))
           H1 H2 H2 H3).
Defined.

(** No record of the dataset is found for "Rodin". *)
Lemma getSculptureByName_not_found_witness :
  (forall s, In s (sculptures sculptures_json) ->
             ~ Contains latinLowerCase (name s) (lit "Rodin")
             /\ normalizeName latinLowerCase (name s)
                <> normalizeName latinLowerCase (trim (latinLowerCase (lit "Rodin"))))
  /\ fst (getSculptureByName latinLowerCase noFile noParse galleryService (lit "Rodin"))
     = None.
Proof.
  assert (H : forall s, In s (sculptures sculptures_json) ->
                        ~ Contains latinLowerCase (name s) (lit "Rodin")
                        /\ normalizeName latinLowerCase (name s)
                           <> normalizeName latinLowerCase
                                (trim (latinLowerCase (lit "Rodin")))).
  { apply (sculptures_json_cases
             (fun s => ~ Contains latinLowerCase (name s) (lit "Rodin")
                       /\ normalizeName latinLowerCase (name s)
                          <> normalizeName latinLowerCase
                               (trim (latinLowerCase (lit "Rodin")))));
      (split; [intros Hc; apply (proj2 (includes_spec _ _)) in Hc;
               vm_compute in Hc; discriminate Hc
              | vm_compute; discriminate]). }
  split; [exact H|].
  exact (proj2 (getSculptureByName_not_found
                  latinLowerCase noFile noParse (lit "data/sculptures.json")
                  sculptures_json (lit "Rodin")) H).
Defined.

Lemma getSculptureByName_own_name_witness :
  In anna_of_schweidnitz (sculptures sculptures_json)
  /\ trim (latinLowerCase (lit " anna OF schweidnitz "))
     = latinLowerCase (name anna_of_schweidnitz)
  /\ (forall s, In s (sculptures sculptures_json) ->
                latinLowerCase (name s) = latinLowerCase (name anna_of_schweidnitz) ->
                s = anna_of_schweidnitz)
  /\ getSculptureByName latinLowerCase noFile noParse galleryService
                        (lit " anna OF schweidnitz ")
     = (Some anna_of_schweidnitz, galleryService).
Proof.
  assert (H1 : In anna_of_schweidnitz (sculptures sculptures_json))
    by (right; right; left; reflexivity).
  assert (H2 : trim (latinLowerCase (lit " anna OF schweidnitz "))
               = latinLowerCase (name anna_of_schweidnitz))
    by (vm_compute; reflexivity).
  assert (H3 : forall s, In s (sculptures sculptures_json) ->
                         latinLowerCase (name s)
                         = latinLowerCase (name anna_of_schweidnitz) ->
                         s = anna_of_schweidnitz).
  { apply (sculptures_json_cases
             (fun s => latinLowerCase (name s)
                       = latinLowerCase (name anna_of_schweidnitz)
                       -> s = anna_of_schweidnitz));
      intros H;
      [vm_compute in H; discriminate H | vm_compute in H; discriminate H
       | reflexivity | vm_compute in H; discriminate H]. }
  split; [exact H1|]. split; [exact H2|]. split; [exact H3|].
  exact (getSculptureByName_own_name
           latinLowerCase noFile noParse (lit "data/sculptures.json") sculptures_json
           (lit " anna OF schweidnitz ") anna_of_schweidnitz H1 H2 H3).
Defined.

Lemma findSculptureByName_sorts_name_search_witness :
  lit "of" <> []
  /\ (forall s, In s (sculptures sculptures_json) ->
                latinLowerCase (name s) <> trim (latinLowerCase (lit "of"))
                /\ normalizeName latinLowerCase (name s)
                   <> normalizeName latinLowerCase (trim (latinLowerCase (lit "of"))))
  /\ fst (findSculptureByName latinLowerCase noFile noParse galleryService (lit "of"))
     = sortDesc nameLength
         (fst (searchSculptures latinLowerCase noFile noParse galleryService
                                (Params.make (Some (lit "of")) None None None))).
Proof.
  assert (H1 : lit "of" <> []) by discriminate.
  assert (H2 : forall s, In s (sculptures sculptures_json) ->
                         latinLowerCase (name s) <> trim (latinLowerCase (lit "of"))
                         /\ normalizeName latinLowerCase (name s)
                            <> normalizeName latinLowerCase
                                 (trim (latinLowerCase (lit "of")))).
  { apply (sculptures_json_cases
             (fun s => latinLowerCase (name s) <> trim (latinLowerCase (lit "of"))
                       /\ normalizeName latinLowerCase (name s)
                          <> normalizeName latinLowerCase
                               (trim (latinLowerCase (lit "of")))));
      split; vm_compute; discriminate. }
  split; [exact H1|]. split; [exact H2|].
  exact (findSculptureByName_sorts_name_search
           latinLowerCase noFile noParse (lit "data/sculptures.json") sculptures_json
           (lit "of") H1 H2).
Defined.




(** Frame 0, a user message, on the session that has the dataset. *)
Lemma handleTextMessage_forwards_witness :
  exampleParse 0
  = Returns (UserMessage (lit "m1") (lit "tell me about Charles the fourth"))
  /\ itemsOfRole User
       (actionsOf (handleTextMessage latinLowerCase nat noFile noParse accepted
                                     (Returns tt) exampleParse 0 gallerySession))
     = [lit "tell me about Charles the fourth"].
Proof.
  split; [reflexivity|].
  exact (proj2 (handleTextMessage_forwards
                  latinLowerCase nat noFile noParse accepted (Returns tt) exampleParse
                  0 (lit "m1") (lit "tell me about Charles the fourth")
                  gallerySession eq_refl)).
Defined.

(** Frame 1, a control message, and frame 2, which is not JSON. *)
Lemma frames_other_than_user_messages_witness :
  (forall id text, exampleParse 1 <> Returns (UserMessage id text))
  /\ (forall id text, exampleParse 2 <> Returns (UserMessage id text))
  /\ filter isUpstream
       (actionsOf (handleMessage latinLowerCase nat noFile noParse accepted
                                 audioAccepted (Returns tt) exampleParse 1 false
                                 gallerySession))
     = []
  /\ filter isUpstream
       (actionsOf (handleMessage latinLowerCase nat noFile noParse accepted
                                 audioAccepted (Returns tt) exampleParse 2 false
                                 gallerySession))
     = [].
Proof.
  assert (H1 : forall id text, exampleParse 1 <> Returns (UserMessage id text))
    by (intros id text; discriminate).
  assert (H2 : forall id text, exampleParse 2 <> Returns (UserMessage id text))
    by (intros id text; discriminate).
  split; [exact H1|]. split; [exact H2|].
  split.
  - exact (proj1 (proj2 (frames_other_than_user_messages
                           latinLowerCase nat noFile noParse accepted audioAccepted
                           (Returns tt) exampleParse 1 gallerySession) H1)).
  - exact (proj1 (proj2 (frames_other_than_user_messages
                           latinLowerCase nat noFile noParse accepted audioAccepted
                           (Returns tt) exampleParse 2 gallerySession) H2)).
Defined.

(** A host without the file: the session gets no data service, and the
    user message of frame 0 goes upstream as it is. *)
Lemma initializeDataService_decides_enrichment_witness :
  let path := lit "data/sculptures.json" in
  let s := {| dataService := None |} in
  loadFails noFile noParse path
  /\ exampleParse 0
     = Returns (UserMessage (lit "m1") (lit "tell me about Charles the fourth"))
  /\ dataService (sessionAfter (initializeDataService nat noFile noParse path s)) = None
  /\ actionsOf (handleTextMessage
                  latinLowerCase nat noFile noParse accepted (Returns tt) exampleParse 0
                  (sessionAfter (initializeDataService nat noFile noParse path s)))
     = Did (Logger_debug (lit "Received text message"))
       :: Did (Client_sendItem User (lit "tell me about Charles the fourth"))
       :: afterUserItem nat accepted (Returns tt)
            (lit "tell me about Charles the fourth").
Proof.
  intros path s.
  assert (H : loadFails noFile noParse path).
  { left. exists (lit "ENOENT"). reflexivity. }
  split; [exact H|]. split; [reflexivity|].
  destruct (proj1 (initializeDataService_decides_enrichment
                     latinLowerCase nat noFile noParse accepted (Returns tt)
                     exampleParse path s 0 (lit "m1")
                     (lit "tell me about Charles the fourth")) H)
    as [Hnone Hrun].
  split; [exact Hnone | exact (Hrun eq_refl)].
Defined.

(** A response whose second item holds the text content that breaks. *)
Lemma handleResponse_stops_at_failure_witness :
  let bad : RTItem unit :=
    MessageItem {| yielded := [TextContent brokenText]; ending := Returns tt |} in
  let t2 := actionsOf (handleItem decimal nat unit audioIgnored bad gallerySession) in
  forAwaitH {| yielded := [OtherItem]; ending := Returns tt |}
            (handleItem decimal nat unit audioIgnored) gallerySession
  = (([], gallerySession), Returns tt)
  /\ handleItem decimal nat unit audioIgnored bad gallerySession
     = ((t2, gallerySession), Throws (lit "stream closed"))
  /\ handleResponse decimal nat unit audioIgnored
                    {| yielded := [OtherItem] ++ bad :: [OtherItem];
                       ending := Returns tt |} gallerySession
     = (([] ++ t2 ++ [Did (Logger_error (lit "Error handling response"))],
         gallerySession),
        Throws (lit "stream closed")).
Proof.
  intros bad t2.
  assert (H1 : forAwaitH {| yielded := [OtherItem]; ending := Returns tt |}
                         (handleItem decimal nat unit audioIgnored) gallerySession
               = (([], gallerySession), Returns tt)) by reflexivity.
  assert (H2 : handleItem decimal nat unit audioIgnored bad gallerySession
               = ((t2, gallerySession), Throws (lit "stream closed")))
    by reflexivity.
  split; [exact H1|]. split; [exact H2|].
  exact (handleResponse_stops_at_failure
           decimal nat unit audioIgnored [OtherItem] [OtherItem] bad (Returns tt)
           gallerySession gallerySession gallerySession [] t2 (lit "stream closed")
           H1 H2).
Defined.


(** An upstream client that is closed. *)
Lemma startEventLoop_needs_first_item_witness :
  let events : AsyncIterable (RTEvent unit) :=
    {| yielded := [InputAudioEvent brokenAudio]; ending := Returns tt |} in
  rejected System personaPrompt = Throws (lit "closed")
  /\ startEventLoop decimal nat unit rejected audioIgnored events gallerySession
     = (([Did (Client_sendItem System personaPrompt)], gallerySession),
        Throws (lit "closed")).
Proof.
  intros events. split; [reflexivity|].
  exact (startEventLoop_needs_first_item
           decimal nat unit rejected audioIgnored events gallerySession (lit "closed")
           eq_refl).
Defined.
